(** * Shuriken Beat Slicer: the waveform item (src/waveformitem.cpp)

    A shallow embedding of [WaveformItem]: the adaptive multi-resolution
    waveform renderer (bin cache, detail levels, the two drawing paths) and
    the drag-reorder controller (press, move, release, position clamping).

    Conventions of the embedding.
    - [qreal] (double) and [float] values are modelled by exact rationals
      [Q]; comparisons [<], [<=], [!=] on them are [Qlt], [Qle] and the
      negation of [Qeq] (decided by [Qle_bool] and [Qeq_bool]).
    - [int] is modelled by [Z]; signed overflow is undefined in C++, so no
      wrap-around is written.  The conversion of a [qreal] to [int]
      truncates toward zero ([Qtrunc]); [floor] and [ceil] are [Qfloor] and
      [Qceiling].
    - A member function becomes a function from the item (and the event or
      painter arguments) to the new item and the list of the effects it
      performed, in program order: signals emitted, painter calls, calls of
      the base class, queries of the sample buffer and reads of the cache.
    - Code that is undefined behaviour in C++ (reading a sample outside the
      buffer, [first()] or [last()] of an empty list, dereferencing the null
      result of a failed cast) returns [None]. *)

From Stdlib Require Import ZArith QArith Qround Lia Lqa Bool.
From stdpp Require Import base option list list_numbers.

Local Open Scope Z_scope.

(** ** Numbers *)

(** The conversion [(int) x] of a [qreal]: the fractional part is discarded. *)
Definition Qtrunc (q : Q) : Z := Z.quot (Qnum q) (Z.pos (Qden q)).

Definition Qlt_bool (a b : Q) : bool := negb (Qle_bool b a).

(** ** Qt geometry and item kinds *)
Module Qt.

Record QPointF := mkPointF { x : Q; y : Q }.

Definition setX (v : Q) (p : QPointF) : QPointF := mkPointF v (y p).
Definition setY (v : Q) (p : QPointF) : QPointF := mkPointF (x p) v.

Record QRectF := mkRectF { xp : Q; yp : Q; w : Q; h : Q }.

Definition left (r : QRectF) : Q := xp r.
Definition right (r : QRectF) : Q := (xp r + w r)%Q.
Definition width (r : QRectF) : Q := w r.
Definition height (r : QRectF) : Q := h r.
Definition center (r : QRectF) : QPointF :=
  mkPointF (xp r + w r / 2)%Q (yp r + h r / 2)%Q.

(** [QGraphicsItem::GraphicsItemFlag] bits used by the item. *)
Definition ItemIsMovable : Z := 0x1.
Definition ItemIsSelectable : Z := 0x2.
Definition ItemUsesExtendedStyleOption : Z := 0x200.
Definition ItemSendsGeometryChanges : Z := 0x800.

(** [Qt::KeyboardModifier] bits and [Qt::MouseButton] values. *)
Definition ShiftModifier : Z := 0x02000000.
Definition ControlModifier : Z := 0x04000000.
Definition AltModifier : Z := 0x08000000.
Definition LeftButton : Z := 1.
Definition RightButton : Z := 2.

(** [QGraphicsItem::UserType]. *)
Definition UserType : Z := 65536.

Inductive GraphicsItemChange :=
| ItemPositionChange
| ItemSelectedHasChanged
| ItemOtherChange (code : Z).

Inductive QVariant :=
| VPointF (p : QPointF)
| VBool (b : bool)
| VInvalid.

(** [QVariant::toPointF]: a null point when the variant holds no point. *)
Definition toPointF (v : QVariant) : QPointF :=
  match v with VPointF p => p | _ => mkPointF 0 0 end.

Inductive QBrush :=
| NoBrush
| LinearGradient (finalStopX : Q)
| SolidColor (r g b a : Z).

Inductive QPen :=
| NoPen
| CosmeticPen (r g b a : Z).

Record QGraphicsSceneMouseEvent := mkMouseEvent {
  modifiers : Z;
  button : Z;
  scenePos : QPointF;
  screenPos_x : Z;
  lastScreenPos_x : Z;
  accepted : bool
}.

Definition setModifiers (m : Z) (e : QGraphicsSceneMouseEvent) :=
  mkMouseEvent m (button e) (scenePos e) (screenPos_x e) (lastScreenPos_x e) (accepted e).
Definition ignore (e : QGraphicsSceneMouseEvent) :=
  mkMouseEvent (modifiers e) (button e) (scenePos e) (screenPos_x e) (lastScreenPos_x e) false.

Record QStyleOptionGraphicsItem := mkStyleOption {
  exposedRect : QRectF;
  state_Selected : bool
}.

End Qt.

(** ** globals.h *)
Module UserTypes.
Definition WAVEFORM : Z := Qt.UserType + 1.
Definition SLICE_POINT : Z := Qt.UserType + 2.
Definition LOOP_MARKER : Z := Qt.UserType + 3.
End UserTypes.

Module ZValues.
Definition WAVEFORM : Z := 0.
Definition SELECTED_WAVEFORM : Z := 1.
Definition SLICE_POINT : Z := 2.
Definition SELECTED_SLICE_POINT : Z := 3.
Definition PLAYHEAD : Z := 4.
Definition BPM_RULER : Z := 5.
Definition BPM_RULER_TEXT : Z := 6.
End ZValues.

Module BpmRuler.
Definition HEIGHT : Q := 18.
End BpmRuler.

(** ** The JUCE containers the item uses (external library) *)
Module Juce.

(** [juce::Array<float>]. *)
Definition Array := list Q.

(** [Array::resize]: truncate, or pad with default-constructed values. *)
Definition resize (targetNumItems : Z) (a : Array) : Array :=
  take (Z.to_nat targetNumItems) a
    ++ replicate (Z.to_nat targetNumItems - length a)%nat 0%Q.

(** [Array::set]: replace inside the array, append when the index is at or
    past the end, nothing for a negative index. *)
Definition set (indexToChange : Z) (newValue : Q) (a : Array) : Array :=
  if bool_decide (0 <= indexToChange < Z.of_nat (length a)) then
    <[Z.to_nat indexToChange := newValue]> a
  else if bool_decide (0 <= indexToChange) then a ++ [newValue]
  else a.

(** [Array::operator[]]: the default value outside the array. *)
Definition get (index : Z) (a : Array) : Q :=
  if bool_decide (0 <= index) then default 0%Q (a !! Z.to_nat index) else 0%Q.

Record Range := mkRange { getStart : Q; getEnd : Q }.

(** [juce::AudioSampleBuffer], read only: one list of samples per channel. *)
Record AudioSampleBuffer := mkBuffer {
  channels : list (list Q);
  size : Z
}.

Definition getNumChannels (b : AudioSampleBuffer) : nat := length (channels b).
Definition getNumFrames (b : AudioSampleBuffer) : Z := size b.

(** Reading the sample at [getReadPointer (chan, 0) + frame]. *)
Definition readSample (b : AudioSampleBuffer) (chanNum : nat) (frame : Z) : option Q :=
  if bool_decide (0 <= frame) then
    channels b !! chanNum ≫= (λ c, c !! Z.to_nat frame)
  else None.

Definition Qmin (a b : Q) : Q := if Qle_bool a b then a else b.
Definition Qmax (a b : Q) : Q := if Qle_bool a b then b else a.

(** [findMinMax (channel, startSample, numSamples)]: an empty range for an
    empty run of samples. *)
Definition findMinMax (b : AudioSampleBuffer) (chanNum : nat)
    (startSample numSamples : Z) : Range :=
  match take (Z.to_nat numSamples)
             (drop (Z.to_nat startSample) (default [] (channels b !! chanNum))) with
  | [] => mkRange 0 0
  | s :: rest => mkRange (foldl Qmin s rest) (foldl Qmax s rest)
  end.

End Juce.

(** ** Signals, painter calls and effects *)

Inductive Signal :=
| sampleDetailLevelReached
| maxDetailLevelReached
| sampleBinDetailLevelReached
| orderPosIsChanging (orderPositions : list Z) (numPlacesMoved : Z)
| orderPosHasChanged (oldOrderPositions : list Z) (numPlacesMoved : Z)
| finishedMoving (orderPos : Z)
| clicked (item : Z) (scenePos : Qt.QPointF).

Inductive PainterCall :=
| setPen (p : Qt.QPen)
| setBrush (b : Qt.QBrush)
| drawRect (r : Qt.QRectF)
| drawLine (p1 p2 : Qt.QPointF)
| drawPolyline (points : list Qt.QPointF)
| save
| restore
| scale (sx sy : Q)
| translate (dx dy : Q).

Inductive Effect :=
| Emit (s : Signal)
| Painter (c : PainterCall)
(** [m_sampleBuffer->findMinMax (chanNum, startFrame, numFrames)], whose
    result is stored at index [binNum] of both cache arrays of the channel. *)
| QueryMinMax (chanNum : nat) (binNum : Z) (startFrame numFrames : Z)
(** The reads of element [index] of the arrays [m_minSampleValues[chanNum]]
    and [m_maxSampleValues[chanNum]]. *)
| ReadBin (chanNum : nat) (index : Z)
(** Calls of the [QGraphicsItem] event handlers of the base class. *)
| BaseMousePress (e : Qt.QGraphicsSceneMouseEvent)
| BaseMouseMove (e : Qt.QGraphicsSceneMouseEvent)
| BaseMouseRelease (e : Qt.QGraphicsSceneMouseEvent).

(** ** The item *)

Inductive DetailLevel := LOW | HIGH | VERY_HIGH.

Record WaveformItem := mkWaveformItem {
  (* QObject / QGraphicsRectItem state *)
  this : Z;
  rect : Qt.QRectF;
  scenePos : Qt.QPointF;
  flags : Z;
  isSelected : bool;
  zValue : Z;
  brush : Qt.QBrush;
  (* members *)
  m_sampleBuffer : Juce.AudioSampleBuffer;
  m_currentOrderPos : Z;
  m_orderPosBeforeMove : Z;
  m_globalScaleFactor : Q;
  m_stretchRatio : Q;
  m_numBins : Z;
  m_binSize : Q;
  m_firstCalculatedBin : Z;
  m_lastCalculatedBin : Z;
  m_detailLevel : DetailLevel;
  m_minSampleValues : list Juce.Array;
  m_maxSampleValues : list Juce.Array
}.

Definition getOrderPos (it : WaveformItem) : Z := m_currentOrderPos it.

Definition m_wavePen : Qt.QPen := Qt.CosmeticPen 23 23 135 191.
Definition m_centreLinePen : Qt.QPen := Qt.CosmeticPen 127 127 127 191.


Definition setZValue (z : Z) (it : WaveformItem) : WaveformItem :=
  mkWaveformItem (this it) (rect it) (scenePos it) (flags it) (isSelected it) z
    (brush it) (m_sampleBuffer it) (m_currentOrderPos it) (m_orderPosBeforeMove it)
    (m_globalScaleFactor it) (m_stretchRatio it) (m_numBins it) (m_binSize it)
    (m_firstCalculatedBin it) (m_lastCalculatedBin it) (m_detailLevel it)
    (m_minSampleValues it) (m_maxSampleValues it).

Definition setBrush_item (b : Qt.QBrush) (it : WaveformItem) : WaveformItem :=
  mkWaveformItem (this it) (rect it) (scenePos it) (flags it) (isSelected it) (zValue it)
    b (m_sampleBuffer it) (m_currentOrderPos it) (m_orderPosBeforeMove it)
    (m_globalScaleFactor it) (m_stretchRatio it) (m_numBins it) (m_binSize it)
    (m_firstCalculatedBin it) (m_lastCalculatedBin it) (m_detailLevel it)
    (m_minSampleValues it) (m_maxSampleValues it).

Definition set_orderPosBeforeMove (p : Z) (it : WaveformItem) : WaveformItem :=
  mkWaveformItem (this it) (rect it) (scenePos it) (flags it) (isSelected it) (zValue it)
    (brush it) (m_sampleBuffer it) (m_currentOrderPos it) p
    (m_globalScaleFactor it) (m_stretchRatio it) (m_numBins it) (m_binSize it)
    (m_firstCalculatedBin it) (m_lastCalculatedBin it) (m_detailLevel it)
    (m_minSampleValues it) (m_maxSampleValues it).

Definition set_globalScaleFactor (s : Q) (it : WaveformItem) : WaveformItem :=
  mkWaveformItem (this it) (rect it) (scenePos it) (flags it) (isSelected it) (zValue it)
    (brush it) (m_sampleBuffer it) (m_currentOrderPos it) (m_orderPosBeforeMove it)
    s (m_stretchRatio it) (m_numBins it) (m_binSize it)
    (m_firstCalculatedBin it) (m_lastCalculatedBin it) (m_detailLevel it)
    (m_minSampleValues it) (m_maxSampleValues it).

Definition set_bins (numBins : Z) (binSize : Q) (it : WaveformItem) : WaveformItem :=
  mkWaveformItem (this it) (rect it) (scenePos it) (flags it) (isSelected it) (zValue it)
    (brush it) (m_sampleBuffer it) (m_currentOrderPos it) (m_orderPosBeforeMove it)
    (m_globalScaleFactor it) (m_stretchRatio it) numBins binSize
    (m_firstCalculatedBin it) (m_lastCalculatedBin it) (m_detailLevel it)
    (m_minSampleValues it) (m_maxSampleValues it).

Definition set_calculatedBins (first last : Z) (it : WaveformItem) : WaveformItem :=
  mkWaveformItem (this it) (rect it) (scenePos it) (flags it) (isSelected it) (zValue it)
    (brush it) (m_sampleBuffer it) (m_currentOrderPos it) (m_orderPosBeforeMove it)
    (m_globalScaleFactor it) (m_stretchRatio it) (m_numBins it) (m_binSize it)
    first last (m_detailLevel it)
    (m_minSampleValues it) (m_maxSampleValues it).

Definition set_detailLevel (d : DetailLevel) (it : WaveformItem) : WaveformItem :=
  mkWaveformItem (this it) (rect it) (scenePos it) (flags it) (isSelected it) (zValue it)
    (brush it) (m_sampleBuffer it) (m_currentOrderPos it) (m_orderPosBeforeMove it)
    (m_globalScaleFactor it) (m_stretchRatio it) (m_numBins it) (m_binSize it)
    (m_firstCalculatedBin it) (m_lastCalculatedBin it) d
    (m_minSampleValues it) (m_maxSampleValues it).

Definition set_sampleValues (mins maxs : list Juce.Array) (it : WaveformItem) : WaveformItem :=
  mkWaveformItem (this it) (rect it) (scenePos it) (flags it) (isSelected it) (zValue it)
    (brush it) (m_sampleBuffer it) (m_currentOrderPos it) (m_orderPosBeforeMove it)
    (m_globalScaleFactor it) (m_stretchRatio it) (m_numBins it) (m_binSize it)
    (m_firstCalculatedBin it) (m_lastCalculatedBin it) (m_detailLevel it)
    mins maxs.

(** [setBackgroundGradient]: the gradient runs from 0 to the width of the rect. *)
Definition setBackgroundGradient (it : WaveformItem) : WaveformItem :=
  setBrush_item (Qt.LinearGradient (Qt.width (rect it))) it.

(** [isLessThanOrderPos] *)
Definition isLessThanOrderPos (item1 item2 : WaveformItem) : bool :=
  getOrderPos item1 <? getOrderPos item2.

(** The items a scene holds, by kind; [itemType] is the virtual [type()]. *)
Inductive SceneItem :=
| Waveform (item : WaveformItem)
| SlicePoint (addr : Z)
| LoopMarker (addr : Z)
| QtItem (addr : Z) (type : Z).

Definition itemAddr (i : SceneItem) : Z :=
  match i with
  | Waveform item => this item
  | SlicePoint a | LoopMarker a | QtItem a _ => a
  end.

(** What the item asks of its [WaveGraphicsScene] (wavegraphicsscene.h is not
    among the sources): the scene rect, the selected waveform items and the
    items at a scene point, as the scene returns them. *)
Record WaveGraphicsScene := mkScene {
  sceneRect : Qt.QRectF;
  getSelectedWaveforms : list WaveformItem;
  items : Qt.QPointF -> list SceneItem
}.

Section WaveformItem.

(** Constants declared in waveformitem.h, which is not among the sources:
    the sentinel of the scale factor and of the calculated bin range, the
    cutoffs of the detail levels and the item type. *)
Variable NOT_SET : Z.
Variable DETAIL_LEVEL_MAX_CUTOFF : Q.
Variable DETAIL_LEVEL_VERY_HIGH_CUTOFF : Q.
Variable DETAIL_LEVEL_HIGH_CUTOFF : Q.
Variable WaveformItem_Type : Z.

Definition itemType (i : SceneItem) : Z :=
  match i with
  | Waveform _ => WaveformItem_Type
  | SlicePoint _ => UserTypes.SLICE_POINT
  | LoopMarker _ => UserTypes.LOOP_MARKER
  | QtItem _ t => t
  end.

(** [qgraphicsitem_cast<WaveformItem*>]: null unless the item is one. *)
Definition qgraphicsitem_cast (i : SceneItem) : option WaveformItem :=
  if itemType i =? WaveformItem_Type then
    match i with Waveform item => Some item | _ => None end
  else None.

(** The constructor.  [m_numBins], [m_binSize], [m_detailLevel] and
    [m_orderPosBeforeMove] are left uninitialised by it: their values are
    arguments here. *)
Definition WaveformItem_new (addr : Z) (sampleBuffer : Juce.AudioSampleBuffer)
    (orderPos : Z) (width height : Q)
    (numBins0 : Z) (binSize0 : Q) (detailLevel0 : DetailLevel) (orderPosBeforeMove0 : Z)
    : WaveformItem :=
  let numChans := Juce.getNumChannels sampleBuffer in
  setBackgroundGradient
    (mkWaveformItem addr (Qt.mkRectF 0 0 width height) (Qt.mkPointF 0 0)
       (Z.lor (Z.lor Qt.ItemIsMovable Qt.ItemIsSelectable)
              (Z.lor Qt.ItemSendsGeometryChanges Qt.ItemUsesExtendedStyleOption))
       false 0 Qt.NoBrush
       sampleBuffer orderPos orderPosBeforeMove0
       (inject_Z NOT_SET) 1 numBins0 binSize0 NOT_SET NOT_SET detailLevel0
       (replicate numChans []) (replicate numChans [])).

(** *** The bin cache *)

(** The resize loop of [resetSampleBins], over the channels. *)
Definition resizeSampleValues (it : WaveformItem) : WaveformItem :=
  let numChans := Juce.getNumChannels (m_sampleBuffer it) in
  let '(mins, maxs) :=
    foldl (λ '(mins, maxs) chanNum,
             (alter (Juce.resize (m_numBins it)) chanNum mins,
              alter (Juce.resize (m_numBins it)) chanNum maxs))
          (m_minSampleValues it, m_maxSampleValues it) (seq 0 numChans) in
  set_sampleValues mins maxs it.

Definition resetSampleBins (it : WaveformItem) : WaveformItem * list Effect :=
  let it := set_calculatedBins NOT_SET NOT_SET it in
  let it :=
    set_bins (Qtrunc (Qt.width (rect it) * m_globalScaleFactor it))
             (inject_Z (Juce.getNumFrames (m_sampleBuffer it))
                / (Qt.width (rect it) * m_globalScaleFactor it))%Q it in
  if Qle_bool (m_binSize it) DETAIL_LEVEL_VERY_HIGH_CUTOFF then
    (set_detailLevel VERY_HIGH it,
     Emit sampleDetailLevelReached ::
       (if Qle_bool (m_binSize it) DETAIL_LEVEL_MAX_CUTOFF
        then [Emit maxDetailLevelReached] else []))
  else if Qle_bool (m_binSize it) DETAIL_LEVEL_HIGH_CUTOFF then
    (resizeSampleValues (set_detailLevel HIGH it), [Emit sampleBinDetailLevelReached])
  else
    (resizeSampleValues (set_detailLevel LOW it), [Emit sampleBinDetailLevelReached]).

(** The body of the loops of [findMinMaxSamples], for one channel and bin. *)
Definition findMinMaxBin (it : WaveformItem) (chanNum : nat) (binNum : Z)
    (st : list Juce.Array * list Juce.Array * list Effect)
    : list Juce.Array * list Juce.Array * list Effect :=
  let '(mins, maxs, tr) := st in
  let startFrame := Qtrunc (inject_Z binNum * m_binSize it) in
  let numFrames := Qtrunc (m_binSize it) in
  let range := Juce.findMinMax (m_sampleBuffer it) chanNum startFrame numFrames in
  (alter (Juce.set binNum (Juce.getStart range)) chanNum mins,
   alter (Juce.set binNum (Juce.getEnd range)) chanNum maxs,
   tr ++ [QueryMinMax chanNum binNum startFrame numFrames]).

Definition findMinMaxSamples (startBin endBin : Z) (it : WaveformItem)
    : WaveformItem * list Effect :=
  let numChans := Juce.getNumChannels (m_sampleBuffer it) in
  let '(mins, maxs, tr) :=
    foldl (λ st chanNum,
             foldl (λ st binNum, findMinMaxBin it chanNum binNum st) st
                   (seqZ startBin (endBin - startBin + 1)))
          (m_minSampleValues it, m_maxSampleValues it, []) (seq 0 numChans) in
  (set_sampleValues mins maxs it, tr).

Definition firstVisibleBin (it : WaveformItem) (exposedRectLeft : Q) : Z :=
  Z.max (Qfloor (exposedRectLeft * m_globalScaleFactor it)) 0.

Definition lastVisibleBin (it : WaveformItem) (exposedRectRight : Q) : Z :=
  Z.min (Qceiling (exposedRectRight * m_globalScaleFactor it)) (m_numBins it - 1).

Definition calculatedBinsNotSet (it : WaveformItem) : bool :=
  (m_firstCalculatedBin it =? NOT_SET) || (m_lastCalculatedBin it =? NOT_SET).

(** The first part of [drawWaveformFromSampleBins] (up to the third [if]):
    the cache is filled for the visible bins it does not hold yet. *)
Definition fillVisibleBins (it : WaveformItem) (exposedRectLeft exposedRectRight : Q)
    : WaveformItem * list Effect :=
  let firstVisibleBin := firstVisibleBin it exposedRectLeft in
  let lastVisibleBin := lastVisibleBin it exposedRectRight in
  let '(it, tr1) :=
    if calculatedBinsNotSet it then
      let '(it, tr) := findMinMaxSamples firstVisibleBin lastVisibleBin it in
      (set_calculatedBins firstVisibleBin lastVisibleBin it, tr)
    else (it, []) in
  let '(it, tr2) :=
    if firstVisibleBin <? m_firstCalculatedBin it then
      let '(it, tr) := findMinMaxSamples firstVisibleBin (m_firstCalculatedBin it - 1) it in
      (set_calculatedBins firstVisibleBin (m_lastCalculatedBin it) it, tr)
    else (it, []) in
  let '(it, tr3) :=
    if m_lastCalculatedBin it <? lastVisibleBin then
      let '(it, tr) := findMinMaxSamples (m_lastCalculatedBin it + 1) lastVisibleBin it in
      (set_calculatedBins (m_firstCalculatedBin it) lastVisibleBin it, tr)
    else (it, []) in
  (it, tr1 ++ tr2 ++ tr3).

(** The two points drawn for one bin: at the x position of the bin, the
    negated minimum and the negated maximum. *)
Definition binPoints (it : WaveformItem) (chanNum : nat) (binNum : Z)
    : Qt.QPointF * Qt.QPointF :=
  let reciprocalScaleFactor := (1 / m_globalScaleFactor it)%Q in
  let min := Juce.get binNum (default [] (m_minSampleValues it !! chanNum)) in
  let max := Juce.get binNum (default [] (m_maxSampleValues it !! chanNum)) in
  (Qt.mkPointF (inject_Z binNum * reciprocalScaleFactor) (- min),
   Qt.mkPointF (inject_Z binNum * reciprocalScaleFactor) (- max))%Q.

(** The second part of [drawWaveformFromSampleBins]: drawing from the cache.
    The array [points] of the HIGH branch has [numVisibleBins * 2] elements:
    a negative size is undefined.  The render hints, set only when compiled
    against Qt 4.6 or less, are left out. *)
Definition drawSampleBins (it : WaveformItem) (exposedRectLeft exposedRectRight : Q)
    : option (list Effect) :=
  let firstVisibleBin := firstVisibleBin it exposedRectLeft in
  let lastVisibleBin := lastVisibleBin it exposedRectRight in
  let numVisibleBins := lastVisibleBin - firstVisibleBin + 1 in
  let numChans := Juce.getNumChannels (m_sampleBuffer it) in
  match m_detailLevel it with
  | LOW =>
      Some (flat_map (λ chanNum,
              flat_map (λ count,
                let '(p1, p2) := binPoints it chanNum (firstVisibleBin + count) in
                [ReadBin chanNum (firstVisibleBin + count); Painter (drawLine p1 p2)])
                (seqZ 0 numVisibleBins)
              ++ [Painter (translate 0 (inject_Z (Z.of_nat numChans)))])
            (seq 0 numChans))
  | HIGH =>
      if numVisibleBins <? 0 then None
      else
        Some (flat_map (λ chanNum,
                map (λ count, ReadBin chanNum (firstVisibleBin + count))
                    (seqZ 0 numVisibleBins)
                ++ [Painter (drawPolyline
                      (flat_map (λ count,
                         let '(p1, p2) := binPoints it chanNum (firstVisibleBin + count) in
                         [p1; p2]) (seqZ 0 numVisibleBins)));
                    Painter (translate 0 (inject_Z (Z.of_nat numChans)))])
              (seq 0 numChans))
  | VERY_HIGH => Some []
  end.

Definition drawWaveformFromSampleBins (it : WaveformItem)
    (exposedRectLeft exposedRectRight : Q) : option (WaveformItem * list Effect) :=
  let '(it, tr) := fillVisibleBins it exposedRectLeft exposedRectRight in
  tr' ← drawSampleBins it exposedRectLeft exposedRectRight;
  Some (it, tr ++ tr').

(** *** Drawing from the samples *)

Definition distanceBetweenFrames (it : WaveformItem) : Q :=
  (Qt.width (rect it) / inject_Z (Juce.getNumFrames (m_sampleBuffer it)))%Q.

Definition firstVisibleFrame (it : WaveformItem) (exposedRectLeft : Q) : Z :=
  Qfloor (exposedRectLeft / distanceBetweenFrames it).

Definition lastVisibleFrame (it : WaveformItem) (exposedRectRight : Q) : Z :=
  Z.min (Qceiling (exposedRectRight / distanceBetweenFrames it))
        (Juce.getNumFrames (m_sampleBuffer it) - 1).

(** The points of the polyline of one channel. *)
Definition samplePoints (it : WaveformItem) (chanNum : nat)
    (firstVisibleFrame numVisibleFrames : Z) : option (list Qt.QPointF) :=
  mapM (λ count,
          s ← Juce.readSample (m_sampleBuffer it) chanNum (firstVisibleFrame + count);
          Some (Qt.mkPointF
                  (inject_Z (firstVisibleFrame + count) * distanceBetweenFrames it)
                  (- s))%Q)
       (seqZ 0 numVisibleFrames).

Definition drawWaveformFromSamples (it : WaveformItem)
    (exposedRectLeft exposedRectRight : Q) : option (list Effect) :=
  let firstVisibleFrame := firstVisibleFrame it exposedRectLeft in
  let lastVisibleFrame := lastVisibleFrame it exposedRectRight in
  let numVisibleFrames := lastVisibleFrame - firstVisibleFrame + 1 in
  let numChans := Juce.getNumChannels (m_sampleBuffer it) in
  if numVisibleFrames <? 0 then None
  else
    perChannel ←
      mapM (λ chanNum,
              points ← samplePoints it chanNum firstVisibleFrame numVisibleFrames;
              Some [Painter (drawPolyline points);
                    Painter (translate 0 (inject_Z (Z.of_nat numChans)))])
           (seq 0 numChans);
    Some (mjoin perChannel).

(** *** Painting *)

(** The test of the scale factor at the start of [paint]. *)
Definition checkScaleFactor (it : WaveformItem) (m11 : Q) : WaveformItem * list Effect :=
  if negb (Qeq_bool (m_globalScaleFactor it) m11) then
    resetSampleBins (set_globalScaleFactor m11 it)
  else (it, []).

Definition paint (it : WaveformItem) (m11 : Q) (styleOption : Qt.QStyleOptionGraphicsItem)
    : option (WaveformItem * list Effect) :=
  let numChans := Juce.getNumChannels (m_sampleBuffer it) in
  let qChans := inject_Z (Z.of_nat numChans) in
  let '(it, tr0) := checkScaleFactor it m11 in
  let background :=
    [Painter (setPen Qt.NoPen); Painter (setBrush (brush it)); Painter (drawRect (rect it));
     Painter save; Painter (scale 1 (Qt.height (rect it) * (1 # 2) / qChans)%Q)] in
  let centreLines :=
    [Painter save; Painter (translate 0 1); Painter (setPen m_centreLinePen)]
    ++ flat_map (λ _ : nat,
         [Painter (drawLine (Qt.mkPointF 0 0) (Qt.mkPointF (Qt.width (rect it)) 0));
          Painter (translate 0 (1 * qChans)%Q)]) (seq 0 numChans)
    ++ [Painter restore] in
  let wavePrologue := [Painter (translate 0 1); Painter (setPen m_wavePen)] in
  '(it, wave) ←
    match m_detailLevel it with
    | VERY_HIGH =>
        tr ← drawWaveformFromSamples it (Qt.left (Qt.exposedRect styleOption))
                                        (Qt.right (Qt.exposedRect styleOption));
        Some (it, tr)
    | _ => drawWaveformFromSampleBins it (Qt.left (Qt.exposedRect styleOption))
                                         (Qt.right (Qt.exposedRect styleOption))
    end;
  let highlight :=
    if Qt.state_Selected styleOption
    then [Painter (setBrush (Qt.SolidColor 255 127 127 70)); Painter (drawRect (rect it))]
    else [] in
  Some (it, tr0 ++ background ++ centreLines ++ wavePrologue ++ wave
              ++ [Painter restore] ++ highlight).


(** *** The drag-reorder controller

    A signal is recorded in the list of effects; the slots connected to it
    belong to the host and are taken not to change the items while the
    handler runs.  The scene passed to a handler is the scene as the call
    of the base class left it. *)

(** The loop of [itemChange] over the selected items: the minimum distances
    from the left and from the right edge of the scene. *)
Definition minDistancesFromSceneEdges (it : WaveformItem)
    (selectedItems : list WaveformItem) : Q * Q :=
  foldl (λ '(minDistanceFromSceneLeftEdge, minDistanceFromSceneRightEdge) item,
           if getOrderPos item <? getOrderPos it then
             (minDistanceFromSceneLeftEdge + Qt.width (rect item),
              minDistanceFromSceneRightEdge)%Q
           else if getOrderPos it <? getOrderPos item then
             (minDistanceFromSceneLeftEdge,
              minDistanceFromSceneRightEdge + Qt.width (rect item))%Q
           else (minDistanceFromSceneLeftEdge, minDistanceFromSceneRightEdge))
        (0%Q, 0%Q) selectedItems.

Definition itemChange (it : WaveformItem) (change : Qt.GraphicsItemChange)
    (value : Qt.QVariant) (scene : option WaveGraphicsScene)
    : WaveformItem * Qt.QVariant :=
  match change, scene with
  | Qt.ItemPositionChange, Some scene =>
      let '(minDistanceFromSceneLeftEdge, minDistanceFromSceneRightEdge) :=
        if isSelected it
        then minDistancesFromSceneEdges it (getSelectedWaveforms scene)
        else (0%Q, 0%Q) in
      let newPos := Qt.toPointF value in
      let newPosRightEdge := (Qt.x newPos + Qt.width (rect it) - 1)%Q in
      let sceneRect := sceneRect scene in
      let newPos :=
        if Qlt_bool (Qt.x newPos) minDistanceFromSceneLeftEdge then
          Qt.setX minDistanceFromSceneLeftEdge newPos
        else if Qlt_bool (Qt.width sceneRect - minDistanceFromSceneRightEdge)
                         newPosRightEdge then
          Qt.setX (Qt.width sceneRect - minDistanceFromSceneRightEdge
                   - Qt.width (rect it))%Q newPos
        else newPos in
      (it, Qt.VPointF (Qt.setY BpmRuler.HEIGHT newPos))
  | Qt.ItemSelectedHasChanged, _ =>
      (if isSelected it then setZValue ZValues.SELECTED_WAVEFORM it
       else setZValue ZValues.WAVEFORM it, value)
  | _, _ => (it, value)
  end.

Definition mousePressEvent (it : WaveformItem) (event : Qt.QGraphicsSceneMouseEvent)
    : WaveformItem * Qt.QGraphicsSceneMouseEvent * list Effect :=
  let modifiers := Z.land (Qt.modifiers event) (Z.lnot Qt.ControlModifier) in
  let event := Qt.setModifiers modifiers event in
  if negb (Z.land (flags it) Qt.ItemIsSelectable =? 0) then
    if negb (Z.land (flags it) Qt.ItemIsMovable =? 0) then
      if Qt.button event =? Qt.RightButton then
        (it, Qt.ignore event, [])
      else
        (set_orderPosBeforeMove (m_currentOrderPos it) it, event, [BaseMousePress event])
    else
      (it, Qt.ignore event, [])
  else
    (it, Qt.ignore event, [Emit (clicked (this it) (Qt.scenePos event))]).

(** The part of [mouseMoveEvent] for a drag to the left. *)
Definition draggedToLeft (it : WaveformItem) (scene : WaveGraphicsScene)
    : option (list Effect) :=
  let selectedItems := getSelectedWaveforms scene in
  leftmost ← head selectedItems;
  let leftmostSelectedItemScenePos := scenePos leftmost in
  let leftmostSelectedItemOrderPos := getOrderPos leftmost in
  otherItem ← last (items scene leftmostSelectedItemScenePos);
  if negb (itemAddr otherItem =? this it) && (itemType otherItem =? WaveformItem_Type) then
    otherWaveformItem ← qgraphicsitem_cast otherItem;
    let otherItemOrderPos := getOrderPos otherWaveformItem in
    if otherItemOrderPos <? leftmostSelectedItemOrderPos then
      if Qlt_bool (Qt.x leftmostSelectedItemScenePos)
                  (Qt.x (scenePos otherWaveformItem)
                   + Qt.x (Qt.center (rect otherWaveformItem)))%Q then
        let numPlacesMoved := otherItemOrderPos - leftmostSelectedItemOrderPos in
        Some [Emit (orderPosIsChanging (map getOrderPos selectedItems) numPlacesMoved)]
      else Some []
    else Some []
  else Some [].

(** The part of [mouseMoveEvent] for a drag to the right. *)
Definition draggedToRight (it : WaveformItem) (scene : WaveGraphicsScene)
    : option (list Effect) :=
  let selectedItems := getSelectedWaveforms scene in
  rightmost ← last selectedItems;
  let rightmostSelectedItemOrderPos := getOrderPos rightmost in
  let rightmostSelectedItemRightEdge :=
    (Qt.x (scenePos rightmost) + Qt.width (rect rightmost) - 1)%Q in
  otherItem ← last (items scene (Qt.mkPointF rightmostSelectedItemRightEdge BpmRuler.HEIGHT));
  if negb (itemAddr otherItem =? this it) && (itemType otherItem =? WaveformItem_Type) then
    otherWaveformItem ← qgraphicsitem_cast otherItem;
    let otherItemOrderPos := getOrderPos otherWaveformItem in
    if rightmostSelectedItemOrderPos <? otherItemOrderPos then
      if Qlt_bool (Qt.x (scenePos otherWaveformItem)
                   + Qt.x (Qt.center (rect otherWaveformItem)))%Q
                  rightmostSelectedItemRightEdge then
        let numPlacesMoved := otherItemOrderPos - rightmostSelectedItemOrderPos in
        Some [Emit (orderPosIsChanging (map getOrderPos selectedItems) numPlacesMoved)]
      else Some []
    else Some []
  else Some [].

Definition mouseMoveEvent (it : WaveformItem) (event : Qt.QGraphicsSceneMouseEvent)
    (scene : WaveGraphicsScene) : option (list Effect) :=
  toLeft ←
    (if Qt.screenPos_x event <? Qt.lastScreenPos_x event
     then draggedToLeft it scene else Some []);
  toRight ←
    (if Qt.lastScreenPos_x event <? Qt.screenPos_x event
     then draggedToRight it scene else Some []);
  Some (BaseMouseMove event :: toLeft ++ toRight).

Definition mouseReleaseEvent (it : WaveformItem) (event : Qt.QGraphicsSceneMouseEvent)
    (scene : WaveGraphicsScene) : list Effect :=
  let selectedItems := getSelectedWaveforms scene in
  [BaseMouseRelease event]
  ++ (if negb (m_orderPosBeforeMove it =? m_currentOrderPos it) then
        let numPlacesMoved := m_currentOrderPos it - m_orderPosBeforeMove it in
        [Emit (orderPosHasChanged
                 (map (λ item, getOrderPos item - numPlacesMoved) selectedItems)
                 numPlacesMoved)]
      else [])
  ++ map (λ item, Emit (finishedMoving (getOrderPos item))) selectedItems.

(** ** Properties *)

(** *** Conversions to [int] *)

Lemma Qtrunc_nonneg (q : Q) : (0 <= q)%Q → Qtrunc q = Qfloor q.
Proof.
  destruct q as [n d]. unfold Qle, Qtrunc, Qfloor. simpl. intros Hn.
  apply Z.quot_div_nonneg; lia.
Qed.

Lemma Qtrunc_nonpos (q : Q) : (q <= 0)%Q → Qtrunc q = Qceiling q.
Proof.
  destruct q as [n d]. unfold Qle, Qtrunc, Qceiling, Qfloor. simpl. intros Hn.
  replace n with (- - n) at 1 by lia.
  rewrite Z.quot_opp_l by lia. f_equal. apply Z.quot_div_nonneg; lia.
Qed.

Lemma Qle_bool_false (a b : Q) : Qle_bool a b = false → (b < a)%Q.
Proof.
  intros H. apply Qnot_le_lt. intros Hle. apply Qle_bool_iff in Hle. congruence.
Qed.

Lemma Qlt_bool_iff (a b : Q) : Qlt_bool a b = true ↔ (a < b)%Q.
Proof.
  unfold Qlt_bool. rewrite negb_true_iff. split.
  - apply Qle_bool_false.
  - intros Hlt. destruct (Qle_bool b a) eqn:E; [|done].
    apply Qle_bool_iff in E. exfalso. exact (Qlt_not_le _ _ Hlt E).
Qed.

Lemma Qlt_bool_false (a b : Q) : Qlt_bool a b = false ↔ (b <= a)%Q.
Proof.
  unfold Qlt_bool. rewrite negb_false_iff. apply Qle_bool_iff.
Qed.

(** *** Resetting the sample bins *)

Lemma foldl_alter_pair {A} (f : A → A) (l : list nat) (a b : list A) :
  foldl (λ '(mins, maxs) chanNum, (alter f chanNum mins, alter f chanNum maxs)) (a, b) l
  = (foldl (λ m chanNum, alter f chanNum m) a l,
     foldl (λ m chanNum, alter f chanNum m) b l).
Proof. revert a b. induction l as [|c l IH]; intros a b; simpl; [done|apply IH]. Qed.

Lemma foldl_alter_seq_lookup {A} (f : A → A) (n s i : nat) (a : list A) :
  foldl (λ m chanNum, alter f chanNum m) a (seq s n) !! i
  = if bool_decide (s ≤ i < s + n)%nat then f <$> a !! i else a !! i.
Proof.
  revert s a. induction n as [|n IH]; intros s a; simpl.
  - rewrite bool_decide_eq_false_2 by lia. done.
  - rewrite IH. destruct (decide (i = s)) as [->|Hne].
    + rewrite list_lookup_alter_eq.
      rewrite bool_decide_eq_false_2 by lia. rewrite bool_decide_eq_true_2 by lia. done.
    + rewrite list_lookup_alter_ne by done.
      destruct (decide (s ≤ i < s + S n)%nat).
      * rewrite !bool_decide_eq_true_2 by lia. done.
      * rewrite !bool_decide_eq_false_2 by lia. done.
Qed.

Lemma foldl_alter_length {A} (f : A → A) (l : list nat) (a : list A) :
  length (foldl (λ m chanNum, alter f chanNum m) a l) = length a.
Proof.
  revert a. induction l as [|c l IH]; intros a; simpl; [done|].
  rewrite IH. apply length_alter.
Qed.

Lemma length_resize (n : Z) (a : Juce.Array) : length (Juce.resize n a) = Z.to_nat n.
Proof. unfold Juce.resize. rewrite length_app, length_take, length_replicate. lia. Qed.

Definition resizedTo (n : Z) (numChans : nat) (arrays : list Juce.Array) : Prop :=
  ∀ chanNum a, (chanNum < numChans)%nat → arrays !! chanNum = Some a →
               length a = Z.to_nat n.

Lemma resizeSampleValues_eq (it : WaveformItem) :
  resizeSampleValues it
  = set_sampleValues
      (foldl (λ m chanNum, alter (Juce.resize (m_numBins it)) chanNum m)
             (m_minSampleValues it) (seq 0 (Juce.getNumChannels (m_sampleBuffer it))))
      (foldl (λ m chanNum, alter (Juce.resize (m_numBins it)) chanNum m)
             (m_maxSampleValues it) (seq 0 (Juce.getNumChannels (m_sampleBuffer it))))
      it.
Proof. unfold resizeSampleValues. rewrite foldl_alter_pair. done. Qed.

Lemma resizeSampleValues_resized (it : WaveformItem) :
  resizedTo (m_numBins it) (Juce.getNumChannels (m_sampleBuffer it))
            (m_minSampleValues (resizeSampleValues it))
  ∧ resizedTo (m_numBins it) (Juce.getNumChannels (m_sampleBuffer it))
              (m_maxSampleValues (resizeSampleValues it)).
Proof.
  rewrite resizeSampleValues_eq. simpl.
  split; intros c a Hc; rewrite foldl_alter_seq_lookup;
    rewrite bool_decide_eq_true_2 by lia;
    intros Ha; apply fmap_Some in Ha as (a0 & _ & ->); apply length_resize.
Qed.

(** The detail level the policy of the specification gives to a bin size. *)
Definition detailLevelPolicy (binSize : Q) : DetailLevel :=
  if Qle_bool binSize DETAIL_LEVEL_VERY_HIGH_CUTOFF then VERY_HIGH
  else if Qle_bool binSize DETAIL_LEVEL_HIGH_CUTOFF then HIGH
  else LOW.

(** How coarse a detail level is. *)
Definition coarseness (d : DetailLevel) : Z :=
  match d with VERY_HIGH => 0 | HIGH => 1 | LOW => 2 end.

Lemma resetSampleBins_fields (it : WaveformItem) :
  let it' := (resetSampleBins it).1 in
  let product := (Qt.width (rect it) * m_globalScaleFactor it)%Q in
  m_numBins it' = Qtrunc product
  ∧ m_binSize it' = (inject_Z (Juce.getNumFrames (m_sampleBuffer it)) / product)%Q
  ∧ m_detailLevel it' = detailLevelPolicy (m_binSize it')
  ∧ m_firstCalculatedBin it' = NOT_SET
  ∧ m_lastCalculatedBin it' = NOT_SET
  ∧ m_globalScaleFactor it' = m_globalScaleFactor it
  ∧ rect it' = rect it
  ∧ m_sampleBuffer it' = m_sampleBuffer it
  ∧ length (m_minSampleValues it') = length (m_minSampleValues it)
  ∧ length (m_maxSampleValues it') = length (m_maxSampleValues it).
Proof.
  unfold resetSampleBins, detailLevelPolicy. simpl.
  set (bs := (inject_Z _ / _)%Q).
  destruct (Qle_bool bs DETAIL_LEVEL_VERY_HIGH_CUTOFF) eqn:E1; simpl.
  - rewrite E1. done.
  - destruct (Qle_bool bs DETAIL_LEVEL_HIGH_CUTOFF) eqn:E2;
      rewrite resizeSampleValues_eq; simpl; rewrite E1, E2, !foldl_alter_length; done.
Qed.

Lemma resetSampleBins_sampleValues (it : WaveformItem) :
  let it' := (resetSampleBins it).1 in
  match m_detailLevel it' with
  | VERY_HIGH =>
      m_minSampleValues it' = m_minSampleValues it
      ∧ m_maxSampleValues it' = m_maxSampleValues it
  | _ =>
      resizedTo (m_numBins it') (Juce.getNumChannels (m_sampleBuffer it))
                (m_minSampleValues it')
      ∧ resizedTo (m_numBins it') (Juce.getNumChannels (m_sampleBuffer it))
                  (m_maxSampleValues it')
  end.
Proof.
  unfold resetSampleBins. simpl.
  set (bs := (inject_Z _ / _)%Q).
  destruct (Qle_bool bs DETAIL_LEVEL_VERY_HIGH_CUTOFF) eqn:E1; simpl; [done|].
  destruct (Qle_bool bs DETAIL_LEVEL_HIGH_CUTOFF) eqn:E2; simpl;
    match goal with |- context [resizeSampleValues ?i] =>
      pose proof (resizeSampleValues_resized i) as Hr;
      rewrite (resizeSampleValues_eq i) in *; simpl in *; exact Hr
    end.
Qed.



(** C8: the detail level set by a reset is the function of the bin size
    given by the fixed cutoffs (VERY_HIGH up to the very-high cutoff, else
    HIGH up to the high cutoff, else LOW); equal bin sizes give equal
    levels, and a smaller bin size never gives a coarser level. *)
Theorem resetSampleBins_detailLevel (it1 it2 : WaveformItem) :
  let r1 := (resetSampleBins it1).1 in
  let r2 := (resetSampleBins it2).1 in
  m_detailLevel r1 = detailLevelPolicy (m_binSize r1)
  ∧ (m_detailLevel r1 = VERY_HIGH ↔ (m_binSize r1 <= DETAIL_LEVEL_VERY_HIGH_CUTOFF)%Q)
  ∧ (m_detailLevel r1 = HIGH ↔
       (DETAIL_LEVEL_VERY_HIGH_CUTOFF < m_binSize r1)%Q
       ∧ (m_binSize r1 <= DETAIL_LEVEL_HIGH_CUTOFF)%Q)
  ∧ (m_detailLevel r1 = LOW ↔
       (DETAIL_LEVEL_VERY_HIGH_CUTOFF < m_binSize r1)%Q
       ∧ (DETAIL_LEVEL_HIGH_CUTOFF < m_binSize r1)%Q)
  ∧ ((m_binSize r1 == m_binSize r2)%Q → m_detailLevel r1 = m_detailLevel r2)
  ∧ ((m_binSize r1 <= m_binSize r2)%Q →
     coarseness (m_detailLevel r1) <= coarseness (m_detailLevel r2)).
Proof.
  intros r1 r2.
  destruct (resetSampleBins_fields it1) as (_ & _ & H1 & _).
  destruct (resetSampleBins_fields it2) as (_ & _ & H2 & _).
  fold r1 in H1. fold r2 in H2. rewrite H1, H2. unfold detailLevelPolicy.
  generalize (m_binSize r1) (m_binSize r2). intros b1 b2.
  destruct (Qle_bool b1 DETAIL_LEVEL_VERY_HIGH_CUTOFF) eqn:V1;
    [apply Qle_bool_iff in V1 | apply Qle_bool_false in V1];
  (destruct (Qle_bool b1 DETAIL_LEVEL_HIGH_CUTOFF) eqn:G1;
    [apply Qle_bool_iff in G1 | apply Qle_bool_false in G1]);
  (destruct (Qle_bool b2 DETAIL_LEVEL_VERY_HIGH_CUTOFF) eqn:V2;
    [apply Qle_bool_iff in V2 | apply Qle_bool_false in V2]);
  (destruct (Qle_bool b2 DETAIL_LEVEL_HIGH_CUTOFF) eqn:G2;
    [apply Qle_bool_iff in G2 | apply Qle_bool_false in G2]);
  simpl; repeat split; intros; try done; try lia;
    try discriminate; try (exfalso; lra); try (split; lra).
Qed.

(** *** Filling the cache *)

(** The query [findMinMaxSamples] makes for one channel and bin. *)
Definition queryOf (it : WaveformItem) (chanNum : nat) (binNum : Z) : Effect :=
  QueryMinMax chanNum binNum (Qtrunc (inject_Z binNum * m_binSize it))
              (Qtrunc (m_binSize it)).

Definition queriesOf (it : WaveformItem) (startBin endBin : Z) : list Effect :=
  flat_map (λ chanNum, map (queryOf it chanNum) (seqZ startBin (endBin - startBin + 1)))
           (seq 0 (Juce.getNumChannels (m_sampleBuffer it))).

(** One of the two cache arrays after the loops of [findMinMaxSamples]. *)
Definition filledValues (it : WaveformItem) (proj : Juce.Range → Q)
    (bins : list Z) (chans : list nat) (arrays : list Juce.Array) : list Juce.Array :=
  foldl (λ a chanNum,
           foldl (λ a binNum,
                    alter (Juce.set binNum
                             (proj (Juce.findMinMax (m_sampleBuffer it) chanNum
                                      (Qtrunc (inject_Z binNum * m_binSize it))
                                      (Qtrunc (m_binSize it))))) chanNum a)
                 a bins)
        arrays chans.

Lemma findMinMaxBin_bins (it : WaveformItem) (chanNum : nat) (bins : list Z)
    (mins maxs : list Juce.Array) (tr : list Effect) :
  foldl (λ st binNum, findMinMaxBin it chanNum binNum st) (mins, maxs, tr) bins
  = (filledValues it Juce.getStart bins [chanNum] mins,
     filledValues it Juce.getEnd bins [chanNum] maxs,
     tr ++ map (queryOf it chanNum) bins).
Proof.
  revert mins maxs tr. induction bins as [|b bins IH]; intros mins maxs tr; simpl.
  - by rewrite app_nil_r.
  - rewrite IH. simpl. by rewrite <- app_assoc.
Qed.

Lemma findMinMaxBin_chans (it : WaveformItem) (chans : list nat) (bins : list Z)
    (mins maxs : list Juce.Array) (tr : list Effect) :
  foldl (λ st chanNum, foldl (λ st binNum, findMinMaxBin it chanNum binNum st) st bins)
        (mins, maxs, tr) chans
  = (filledValues it Juce.getStart bins chans mins,
     filledValues it Juce.getEnd bins chans maxs,
     tr ++ flat_map (λ chanNum, map (queryOf it chanNum) bins) chans).
Proof.
  revert mins maxs tr. induction chans as [|c chans IH]; intros mins maxs tr; simpl.
  - by rewrite app_nil_r.
  - rewrite findMinMaxBin_bins, IH. simpl. by rewrite <- app_assoc.
Qed.

Lemma findMinMaxSamples_eq (startBin endBin : Z) (it : WaveformItem) :
  findMinMaxSamples startBin endBin it
  = (set_sampleValues
       (filledValues it Juce.getStart (seqZ startBin (endBin - startBin + 1))
          (seq 0 (Juce.getNumChannels (m_sampleBuffer it))) (m_minSampleValues it))
       (filledValues it Juce.getEnd (seqZ startBin (endBin - startBin + 1))
          (seq 0 (Juce.getNumChannels (m_sampleBuffer it))) (m_maxSampleValues it))
       it,
     queriesOf it startBin endBin).
Proof. unfold findMinMaxSamples. rewrite findMinMaxBin_chans. done. Qed.

(** The channel and bin of every query of a list of effects, in order. *)
Definition queriedBins (tr : list Effect) : list (nat * Z) :=
  omap (λ e, match e with
             | QueryMinMax chanNum binNum _ _ => Some (chanNum, binNum)
             | _ => None
             end) tr.

(** Every bin from [startBin] to [endBin], once for each channel. *)
Definition binRange (numChans : nat) (startBin endBin : Z) : list (nat * Z) :=
  flat_map (λ chanNum, map (pair chanNum) (seqZ startBin (endBin - startBin + 1)))
           (seq 0 numChans).

Lemma queriedBins_app (tr1 tr2 : list Effect) :
  queriedBins (tr1 ++ tr2) = queriedBins tr1 ++ queriedBins tr2.
Proof. apply omap_app. Qed.

Lemma queriedBins_map_queryOf (it : WaveformItem) (chanNum : nat) (bins : list Z) :
  queriedBins (map (queryOf it chanNum) bins) = map (pair chanNum) bins.
Proof. induction bins as [|b bs IH]; [done|]. cbn. f_equal. exact IH. Qed.

Lemma queriedBins_queriesOf (it : WaveformItem) (startBin endBin : Z) :
  queriedBins (queriesOf it startBin endBin)
  = binRange (Juce.getNumChannels (m_sampleBuffer it)) startBin endBin.
Proof.
  unfold queriesOf, binRange.
  induction (seq 0 (Juce.getNumChannels (m_sampleBuffer it))) as [|c cs IH]; [done|].
  simpl. by rewrite queriedBins_app, IH, queriedBins_map_queryOf.
Qed.

Lemma elem_of_binRange (numChans : nat) (startBin endBin : Z) (chanNum : nat) (binNum : Z) :
  (chanNum, binNum) ∈ binRange numChans startBin endBin
  ↔ (chanNum < numChans)%nat ∧ startBin <= binNum <= endBin.
Proof.
  unfold binRange. rewrite list_elem_of_In, in_flat_map. split.
  - intros (c & Hc & Hin). apply in_map_iff in Hin as (b & Heq & Hb).
    inversion Heq; subst. apply list_elem_of_In, elem_of_seqZ in Hb.
    apply in_seq in Hc. lia.
  - intros [Hc Hb]. exists chanNum. split; [apply in_seq; lia|].
    apply in_map_iff. exists binNum. split; [done|].
    apply list_elem_of_In, elem_of_seqZ. lia.
Qed.


(** The ranges of bins [fillVisibleBins] passes to [findMinMaxSamples], in
    the order of the calls. *)
Definition fillRanges (it : WaveformItem) (exposedRectLeft exposedRectRight : Q)
    : list (Z * Z) :=
  let fv := firstVisibleBin it exposedRectLeft in
  let lv := lastVisibleBin it exposedRectRight in
  if calculatedBinsNotSet it then [(fv, lv)]
  else (if fv <? m_firstCalculatedBin it then [(fv, m_firstCalculatedBin it - 1)] else [])
       ++ (if m_lastCalculatedBin it <? lv then [(m_lastCalculatedBin it + 1, lv)] else []).

Definition filledRanges (it : WaveformItem) (proj : Juce.Range → Q)
    (ranges : list (Z * Z)) (arrays : list Juce.Array) : list Juce.Array :=
  foldl (λ a '(startBin, endBin),
           filledValues it proj (seqZ startBin (endBin - startBin + 1))
                        (seq 0 (Juce.getNumChannels (m_sampleBuffer it))) a)
        arrays ranges.

Lemma fillVisibleBins_eq (it : WaveformItem) (l r : Q) :
  let fv := firstVisibleBin it l in
  let lv := lastVisibleBin it r in
  let ranges := fillRanges it l r in
  fillVisibleBins it l r
  = (set_calculatedBins
       (if calculatedBinsNotSet it then fv else Z.min (m_firstCalculatedBin it) fv)
       (if calculatedBinsNotSet it then lv else Z.max (m_lastCalculatedBin it) lv)
       (set_sampleValues
          (filledRanges it Juce.getStart ranges (m_minSampleValues it))
          (filledRanges it Juce.getEnd ranges (m_maxSampleValues it)) it),
     flat_map (λ '(startBin, endBin), queriesOf it startBin endBin) ranges).
Proof.
  intros fv lv ranges. subst ranges. unfold fillVisibleBins, fillRanges.
  fold fv. fold lv.
  destruct (calculatedBinsNotSet it) eqn:Hns.
  - rewrite findMinMaxSamples_eq. cbn -[filledValues queriesOf seqZ].
    rewrite !Z.ltb_irrefl. cbn -[filledValues queriesOf seqZ].
    by rewrite !app_nil_r.
  - destruct (fv <? m_firstCalculatedBin it) eqn:Hf.
    + rewrite findMinMaxSamples_eq. cbn -[filledValues queriesOf seqZ].
      destruct (m_lastCalculatedBin it <? lv) eqn:Hl.
      * rewrite findMinMaxSamples_eq. cbn -[filledValues queriesOf seqZ].
        rewrite Z.min_r, Z.max_r by lia. by rewrite !app_nil_r.
      * cbn -[filledValues queriesOf seqZ].
        rewrite Z.min_r, Z.max_l by lia. by rewrite !app_nil_r.
    + cbn -[filledValues queriesOf seqZ].
      destruct (m_lastCalculatedBin it <? lv) eqn:Hl.
      * rewrite findMinMaxSamples_eq. cbn -[filledValues queriesOf seqZ].
        rewrite Z.min_l, Z.max_r by lia. by rewrite !app_nil_r.
      * cbn -[filledValues queriesOf seqZ].
        rewrite Z.min_l, Z.max_l by lia. by destruct it.
Qed.

Lemma queriedBins_fill (it : WaveformItem) (l r : Q) :
  queriedBins (fillVisibleBins it l r).2
  = flat_map (λ '(startBin, endBin),
                binRange (Juce.getNumChannels (m_sampleBuffer it)) startBin endBin)
             (fillRanges it l r).
Proof.
  rewrite fillVisibleBins_eq. cbn [snd].
  induction (fillRanges it l r) as [|[a b] rs IH]; [done|].
  simpl. by rewrite queriedBins_app, IH, queriedBins_queriesOf.
Qed.


Lemma lastVisibleBin_le (it : WaveformItem) (r : Q) : lastVisibleBin it r <= m_numBins it - 1.
Proof. unfold lastVisibleBin. lia. Qed.

Lemma calculatedBinsNotSet_false (it : WaveformItem) :
  calculatedBinsNotSet it = false
  ↔ m_firstCalculatedBin it ≠ NOT_SET ∧ m_lastCalculatedBin it ≠ NOT_SET.
Proof. unfold calculatedBinsNotSet. rewrite orb_false_iff, !Z.eqb_neq. done. Qed.

Lemma calculatedBinsNotSet_true (it : WaveformItem) :
  calculatedBinsNotSet it = true
  ↔ m_firstCalculatedBin it = NOT_SET ∨ m_lastCalculatedBin it = NOT_SET.
Proof. unfold calculatedBinsNotSet. rewrite orb_true_iff, !Z.eqb_eq. done. Qed.


Lemma fillVisibleBins_preserves (it : WaveformItem) (l r : Q) :
  let it' := (fillVisibleBins it l r).1 in
  m_globalScaleFactor it' = m_globalScaleFactor it
  ∧ m_numBins it' = m_numBins it
  ∧ m_binSize it' = m_binSize it
  ∧ m_detailLevel it' = m_detailLevel it
  ∧ m_sampleBuffer it' = m_sampleBuffer it
  ∧ rect it' = rect it.
Proof. rewrite fillVisibleBins_eq. done. Qed.

Lemma firstVisibleBin_fill (it : WaveformItem) (l r l' : Q) :
  firstVisibleBin (fillVisibleBins it l r).1 l' = firstVisibleBin it l'.
Proof. rewrite fillVisibleBins_eq. done. Qed.

Lemma lastVisibleBin_fill (it : WaveformItem) (l r r' : Q) :
  lastVisibleBin (fillVisibleBins it l r).1 r' = lastVisibleBin it r'.
Proof. rewrite fillVisibleBins_eq. done. Qed.


Lemma Forall_flat_map {A B} (P : B → Prop) (f : A → list B) (l : list A) :
  (∀ x, x ∈ l → Forall P (f x)) → Forall P (flat_map f l).
Proof.
  induction l as [|a l IH]; intros H; simpl; [constructor|].
  apply Forall_app. split.
  - apply H. left.
  - apply IH. intros x Hx. apply H. by right.
Qed.








(** *** The cache stays inside its arrays *)

Definition sizedTo (n : Z) (arrays : list Juce.Array) : Prop :=
  Forall (λ a : Juce.Array, length a = Z.to_nat n) arrays.

(** The state of the cache between two paints in a bin-based detail level:
    the bin count is the one of the last reset, both arrays of every
    channel hold [m_numBins] values, and the calculated range, when set,
    lies within the arrays. *)
Definition binCacheOk (it : WaveformItem) : Prop :=
  m_numBins it = Qtrunc (Qt.width (rect it) * m_globalScaleFactor it)
  ∧ length (m_minSampleValues it) = Juce.getNumChannels (m_sampleBuffer it)
  ∧ length (m_maxSampleValues it) = Juce.getNumChannels (m_sampleBuffer it)
  ∧ sizedTo (m_numBins it) (m_minSampleValues it)
  ∧ sizedTo (m_numBins it) (m_maxSampleValues it)
  ∧ (calculatedBinsNotSet it = false →
     0 <= m_firstCalculatedBin it
     ∧ m_firstCalculatedBin it <= m_lastCalculatedBin it + 1
     ∧ m_lastCalculatedBin it < m_numBins it).

Lemma length_set (index : Z) (v : Q) (a : Juce.Array) :
  0 <= index < Z.of_nat (length a) → length (Juce.set index v a) = length a.
Proof.
  intros H. unfold Juce.set. rewrite bool_decide_eq_true_2 by done. apply length_insert.
Qed.

Lemma filledValues_sized (it : WaveformItem) (proj : Juce.Range → Q) (n : Z)
    (bins : list Z) (chans : list nat) (arrays : list Juce.Array) :
  Forall (λ b, 0 <= b < n) bins →
  sizedTo n arrays →
  sizedTo n (filledValues it proj bins chans arrays)
  ∧ length (filledValues it proj bins chans arrays) = length arrays.
Proof.
  intros Hbins. unfold filledValues. revert arrays.
  induction chans as [|c chans IH]; intros arrays Hs; simpl; [done|].
  assert (∀ arr, sizedTo n arr →
            sizedTo n (foldl (λ a binNum,
               alter (Juce.set binNum
                        (proj (Juce.findMinMax (m_sampleBuffer it) c
                                 (Qtrunc (inject_Z binNum * m_binSize it))
                                 (Qtrunc (m_binSize it))))) c a) arr bins)
            ∧ length (foldl (λ a binNum,
               alter (Juce.set binNum
                        (proj (Juce.findMinMax (m_sampleBuffer it) c
                                 (Qtrunc (inject_Z binNum * m_binSize it))
                                 (Qtrunc (m_binSize it))))) c a) arr bins)
              = length arr) as Hinner.
  { clear IH Hs arrays. induction Hbins as [|b bins Hb _ IHb]; intros arr Hs; simpl; [done|].
    destruct (IHb (alter (Juce.set b
                  (proj (Juce.findMinMax (m_sampleBuffer it) c
                           (Qtrunc (inject_Z b * m_binSize it))
                           (Qtrunc (m_binSize it))))) c arr)) as [H1 H2].
    - apply Forall_alter; [done|]. intros a _ Ha. rewrite length_set; [done|]. lia.
    - split; [done|]. rewrite H2. apply length_alter. }
  destruct (Hinner arrays Hs) as [H1 H2].
  destruct (IH _ H1) as [H3 H4]. split; [done|]. by rewrite H4.
Qed.

Lemma filledRanges_sized (it : WaveformItem) (proj : Juce.Range → Q)
    (ranges : list (Z * Z)) (arrays : list Juce.Array) :
  Forall (λ '(a, b), b < a ∨ (0 <= a ∧ b < m_numBins it)) ranges →
  sizedTo (m_numBins it) arrays →
  sizedTo (m_numBins it) (filledRanges it proj ranges arrays)
  ∧ length (filledRanges it proj ranges arrays) = length arrays.
Proof.
  intros Hr. unfold filledRanges. revert arrays.
  induction Hr as [|[a b] rs Hab _ IH]; intros arrays Hs; simpl; [done|].
  destruct (filledValues_sized it proj (m_numBins it) (seqZ a (b - a + 1))
              (seq 0 (Juce.getNumChannels (m_sampleBuffer it))) arrays) as [H1 H2].
  - apply Forall_seqZ. lia.
  - done.
  - destruct (IH _ H1) as [H3 H4]. split; [done|]. by rewrite H4.
Qed.

(** The visible bins of an exposed rectangle inside the item. *)
Lemma visibleBins_bounds (it : WaveformItem) (l r : Q) :
  m_numBins it = Qtrunc (Qt.width (rect it) * m_globalScaleFactor it) →
  (0 < m_globalScaleFactor it)%Q →
  (0 <= l)%Q → (l <= r)%Q → (r <= Qt.width (rect it))%Q →
  0 <= firstVisibleBin it l <= m_numBins it
  ∧ -1 <= lastVisibleBin it r <= m_numBins it - 1
  ∧ firstVisibleBin it l <= lastVisibleBin it r + 1.
Proof.
  intros Hn Hs Hl Hlr Hr.
  set (g := m_globalScaleFactor it) in *. set (w := Qt.width (rect it)) in *.
  assert (0 <= w * g)%Q as Hwg by nra.
  rewrite (Qtrunc_nonneg _ Hwg) in Hn.
  assert (Qfloor (l * g) <= Qfloor (w * g)) as H1.
  { apply Qfloor_resp_le. nra. }
  assert (Qfloor (l * g) <= Qceiling (r * g)) as H2.
  { assert (Qfloor (r * g) <= Qceiling (r * g)) by (rewrite Zle_Qle; apply Qle_floor_ceiling).
    assert (Qfloor (l * g) <= Qfloor (r * g)) by (apply Qfloor_resp_le; nra). lia. }
  assert (0 <= Qceiling (r * g)) as H3.
  { change 0 with (Qceiling 0). apply Qceiling_resp_le. nra. }
  assert (0 <= Qfloor (w * g)) as H4.
  { change 0 with (Qfloor 0). apply Qfloor_resp_le. done. }
  unfold firstVisibleBin, lastVisibleBin. fold g. lia.
Qed.

Lemma fillVisibleBins_ok (it : WaveformItem) (l r : Q) :
  NOT_SET < 0 →
  binCacheOk it →
  (0 < m_globalScaleFactor it)%Q →
  (0 <= l)%Q → (l <= r)%Q → (r <= Qt.width (rect it))%Q →
  let it' := (fillVisibleBins it l r).1 in
  binCacheOk it'
  ∧ m_firstCalculatedBin it' <= firstVisibleBin it l
  ∧ lastVisibleBin it r <= m_lastCalculatedBin it'
  ∧ Forall (λ '(chanNum, binNum),
              (chanNum < Juce.getNumChannels (m_sampleBuffer it))%nat
              ∧ 0 <= binNum < m_numBins it)
           (queriedBins (fillVisibleBins it l r).2).
Proof.
  intros Hneg (Hn & Hlm & Hlx & Hsm & Hsx & Hrange) Hs Hl Hlr Hr it'.
  destruct (visibleBins_bounds it l r Hn Hs Hl Hlr Hr) as (Hfv & Hlv & Hfl).
  assert (Forall (λ '(a, b), b < a ∨ (0 <= a ∧ b < m_numBins it)) (fillRanges it l r)) as Hrs.
  { unfold fillRanges. destruct (calculatedBinsNotSet it) eqn:Hns.
    - apply Forall_singleton. lia.
    - specialize (Hrange eq_refl). apply Forall_app. split.
      + destruct (Z.ltb_spec (firstVisibleBin it l) (m_firstCalculatedBin it));
          [apply Forall_singleton; lia|constructor].
      + destruct (Z.ltb_spec (m_lastCalculatedBin it) (lastVisibleBin it r));
          [apply Forall_singleton; lia|constructor]. }
  rewrite queriedBins_fill. subst it'. rewrite fillVisibleBins_eq.
  cbn [fst]. unfold binCacheOk.
  cbn -[filledRanges firstVisibleBin lastVisibleBin].
  destruct (filledRanges_sized it Juce.getStart _ _ Hrs Hsm) as [Hm1 Hm2].
  destruct (filledRanges_sized it Juce.getEnd _ _ Hrs Hsx) as [Hx1 Hx2].
  split; [|split; [|split]].
  - split; [done|]. rewrite Hm2, Hx2.
    split; [done|]. split; [done|]. split; [done|]. split; [done|].
    intros Hns'. destruct (calculatedBinsNotSet it) eqn:Hns.
    + lia.
    + specialize (Hrange eq_refl). lia.
  - destruct (calculatedBinsNotSet it); lia.
  - destruct (calculatedBinsNotSet it); lia.
  - apply Forall_flat_map. intros [a b] Hab.
    apply Forall_forall. intros [c x] Hcx. apply elem_of_binRange in Hcx.
    split; [lia|]. rewrite Forall_forall in Hrs. specialize (Hrs _ Hab). simpl in Hrs. lia.
Qed.

Lemma resetSampleBins_ok (it : WaveformItem) :
  length (m_minSampleValues it) = Juce.getNumChannels (m_sampleBuffer it) →
  length (m_maxSampleValues it) = Juce.getNumChannels (m_sampleBuffer it) →
  m_detailLevel (resetSampleBins it).1 ≠ VERY_HIGH →
  binCacheOk (resetSampleBins it).1.
Proof.
  intros Hlm Hlx Hd.
  destruct (resetSampleBins_fields it)
    as (Hn & _ & _ & Hf & _ & Hg & Hr & Hb & Hm & Hx).
  pose proof (resetSampleBins_sampleValues it) as Ha.
  cbv zeta in *. set (it' := (resetSampleBins it).1) in *.
  unfold binCacheOk. rewrite Hg, Hr, Hb, Hm, Hx.
  assert (resizedTo (m_numBins it') (Juce.getNumChannels (m_sampleBuffer it))
                    (m_minSampleValues it')
          ∧ resizedTo (m_numBins it') (Juce.getNumChannels (m_sampleBuffer it))
                      (m_maxSampleValues it')) as [Hrm Hrx].
  { destruct (m_detailLevel it'); done. }
  split; [done|]. split; [done|]. split; [done|].
  split; [|split].
  - apply Forall_lookup. intros i a Hi. apply (Hrm i a); [|done].
    apply lookup_lt_Some in Hi. lia.
  - apply Forall_lookup. intros i a Hi. apply (Hrx i a); [|done].
    apply lookup_lt_Some in Hi. lia.
  - intros Hns. apply calculatedBinsNotSet_false in Hns. tauto.
Qed.

(** The channel and index of every read of the cache, in order. *)
Definition readBins (tr : list Effect) : list (nat * Z) :=
  omap (λ e, match e with
             | ReadBin chanNum index => Some (chanNum, index)
             | _ => None
             end) tr.

Lemma readBins_app (tr1 tr2 : list Effect) :
  readBins (tr1 ++ tr2) = readBins tr1 ++ readBins tr2.
Proof. apply omap_app. Qed.





(** *** A bin is queried once between two resets *)

(** Successive fills for a list of exposed rectangles (left and right edge),
    with the bins queried so far. *)
Definition fills (it : WaveformItem) (exposed : list (Q * Q))
    : WaveformItem * list (nat * Z) :=
  foldl (λ '(it, queried) '(l, r),
           ((fillVisibleBins it l r).1, queried ++ queriedBins (fillVisibleBins it l r).2))
        (it, []) exposed.

Lemma NoDup_binRange (numChans : nat) (startBin endBin : Z) :
  NoDup (binRange numChans startBin endBin).
Proof.
  unfold binRange. generalize 0%nat as s. induction numChans as [|n IH]; intros s.
  - constructor.
  - cbn [seq flat_map]. apply NoDup_app. split; [|split].
    + apply NoDup_fmap_2; [|apply NoDup_seqZ]. intros x y [= ->]. done.
    + intros [c b] Hin Hin2. apply list_elem_of_fmap in Hin as (b' & [= -> ->] & _).
      apply list_elem_of_In, in_flat_map in Hin2 as (c' & Hc' & Hin2).
      apply in_seq in Hc'. apply in_map_iff in Hin2 as (b'' & [= <- _] & _). lia.
    + apply IH.
Qed.

(** The calculated range, when set, holds exactly the bins queried so far. *)
Definition queriedSoFar (it : WaveformItem) (queried : list (nat * Z)) : Prop :=
  NoDup queried
  ∧ ∀ chanNum binNum, (chanNum, binNum) ∈ queried →
      calculatedBinsNotSet it = false
      ∧ m_firstCalculatedBin it <= binNum <= m_lastCalculatedBin it.

Lemma fillVisibleBins_queriedSoFar (it : WaveformItem) (l r : Q) (queried : list (nat * Z)) :
  NOT_SET < 0 →
  binCacheOk it →
  (0 < m_globalScaleFactor it)%Q →
  (0 <= l)%Q → (l <= r)%Q → (r <= Qt.width (rect it))%Q →
  queriedSoFar it queried →
  queriedSoFar (fillVisibleBins it l r).1
               (queried ++ queriedBins (fillVisibleBins it l r).2).
Proof.
  intros Hneg Hok Hs Hl Hlr Hr [Hnd Hin].
  destruct Hok as (Hn & _ & _ & _ & _ & Hrange).
  destruct (visibleBins_bounds it l r Hn Hs Hl Hlr Hr) as (Hfv & Hlv & Hfl).
  rewrite queriedBins_fill. unfold fillRanges.
  set (fv := firstVisibleBin it l) in *. set (lv := lastVisibleBin it r) in *.
  set (numChans := Juce.getNumChannels (m_sampleBuffer it)).
  assert (m_firstCalculatedBin (fillVisibleBins it l r).1
          = if calculatedBinsNotSet it then fv else Z.min (m_firstCalculatedBin it) fv) as HF
    by (by rewrite fillVisibleBins_eq).
  assert (m_lastCalculatedBin (fillVisibleBins it l r).1
          = if calculatedBinsNotSet it then lv else Z.max (m_lastCalculatedBin it) lv) as HL
    by (by rewrite fillVisibleBins_eq).
  unfold queriedSoFar.
  destruct (calculatedBinsNotSet it) eqn:Hns.
  - assert (queried = []) as ->.
    { destruct queried as [|[c b] q]; [done|]. destruct (Hin c b); [left|done]. }
    cbn [flat_map app]. rewrite app_nil_r. split; [apply NoDup_binRange|].
    intros c b Hcb. apply elem_of_binRange in Hcb.
    rewrite calculatedBinsNotSet_false, HF, HL. lia.
  - specialize (Hrange eq_refl). apply calculatedBinsNotSet_false in Hns.
    assert (∀ c b, (c, b) ∈ queried →
              m_firstCalculatedBin it <= b <= m_lastCalculatedBin it) as Hin'.
    { intros c b Hcb. by destruct (Hin c b Hcb). }
    set (before := if fv <? m_firstCalculatedBin it
                   then [(fv, m_firstCalculatedBin it - 1)] else []).
    set (after := if m_lastCalculatedBin it <? lv
                  then [(m_lastCalculatedBin it + 1, lv)] else []).
    rewrite flat_map_app.
    assert (∀ c b, (c, b) ∈ flat_map (λ '(a, b), binRange numChans a b) before →
              fv <= b <= m_firstCalculatedBin it - 1) as Hbefore.
    { intros c b. subst before. destruct (fv <? m_firstCalculatedBin it); cbn [flat_map].
      - rewrite app_nil_r, elem_of_binRange. lia.
      - intros Hcb. by apply elem_of_nil in Hcb. }
    assert (∀ c b, (c, b) ∈ flat_map (λ '(a, b), binRange numChans a b) after →
              m_lastCalculatedBin it + 1 <= b <= lv) as Hafter.
    { intros c b. subst after. destruct (m_lastCalculatedBin it <? lv); cbn [flat_map].
      - rewrite app_nil_r, elem_of_binRange. lia.
      - intros Hcb. by apply elem_of_nil in Hcb. }
    assert (NoDup (flat_map (λ '(a, b), binRange numChans a b) before)) as Hnb.
    { subst before. destruct (fv <? m_firstCalculatedBin it); cbn [flat_map].
      - rewrite app_nil_r. apply NoDup_binRange.
      - constructor. }
    assert (NoDup (flat_map (λ '(a, b), binRange numChans a b) after)) as Hna.
    { subst after. destruct (m_lastCalculatedBin it <? lv); cbn [flat_map].
      - rewrite app_nil_r. apply NoDup_binRange.
      - constructor. }
    split.
    + apply NoDup_app. split; [done|]. split.
      * intros [c b] Hq Hnew. apply Hin' in Hq.
        apply elem_of_app in Hnew as [Hnew|Hnew];
          [apply Hbefore in Hnew|apply Hafter in Hnew]; lia.
      * apply NoDup_app. split; [done|]. split; [|done].
        intros [c b] H1 H2. apply Hbefore in H1. apply Hafter in H2. lia.
    + intros c b Hcb. rewrite calculatedBinsNotSet_false, HF, HL.
      apply elem_of_app in Hcb as [Hcb|Hcb]; [apply Hin' in Hcb; lia|].
      apply elem_of_app in Hcb as [Hcb|Hcb];
        [apply Hbefore in Hcb|apply Hafter in Hcb]; lia.
Qed.

(** Between two resets no bin of a channel is queried twice: along any
    sequence of fills for exposed rectangles inside the item, starting with
    nothing queried, the bins queried are pairwise distinct, and they lie in
    the calculated range. *)
Lemma fills_never_requery (it : WaveformItem) (exposed : list (Q * Q)) :
  NOT_SET < 0 →
  binCacheOk it →
  calculatedBinsNotSet it = true →
  (0 < m_globalScaleFactor it)%Q →
  Forall (λ '(l, r), (0 <= l)%Q ∧ (l <= r)%Q ∧ (r <= Qt.width (rect it))%Q) exposed →
  binCacheOk (fills it exposed).1
  ∧ queriedSoFar (fills it exposed).1 (fills it exposed).2.
Proof.
  intros Hneg Hok Hns Hs Hex. unfold fills.
  assert (queriedSoFar it []) as Hq.
  { split; [constructor|]. intros c b Hcb. by apply elem_of_nil in Hcb. }
  clear Hns. revert Hok Hq Hs Hex. generalize (@nil (nat * Z)) as queried. revert it.
  induction exposed as [|[l r] rest IH]; intros it queried Hok Hq Hs Hex; [done|].
  apply Forall_cons in Hex as [(Hl & Hlr & Hr) Hrest]. cbn [foldl].
  destruct (fillVisibleBins_preserves it l r) as (Pg & _ & _ & _ & _ & Pr).
  apply IH.
  - by apply fillVisibleBins_ok.
  - by apply fillVisibleBins_queriedSoFar.
  - by rewrite Pg.
  - by rewrite Pr.
Qed.



(** *** Drawing from the samples *)










Lemma checkScaleFactor_geometry (it : WaveformItem) (m11 : Q) :
  rect (checkScaleFactor it m11).1 = rect it
  ∧ m_sampleBuffer (checkScaleFactor it m11).1 = m_sampleBuffer it.
Proof.
  unfold checkScaleFactor. destruct (negb _); [|done].
  destruct (resetSampleBins_fields (set_globalScaleFactor m11 it))
    as (_ & _ & _ & _ & _ & _ & Hr & Hb & _).
  done.
Qed.



(** *** Clamping a proposed position *)

(** The cumulative width of the selected items that satisfy [keep]. *)
Definition cumulativeWidth (keep : WaveformItem → bool) (selectedItems : list WaveformItem) : Q :=
  foldr (λ item acc, if keep item then (Qt.width (rect item) + acc)%Q else acc) 0%Q
        selectedItems.

(** The other selected items before and after [it] in the order. *)
Definition widthBefore (it : WaveformItem) (selectedItems : list WaveformItem) : Q :=
  cumulativeWidth (λ item, getOrderPos item <? getOrderPos it) selectedItems.
Definition widthAfter (it : WaveformItem) (selectedItems : list WaveformItem) : Q :=
  cumulativeWidth (λ item, getOrderPos it <? getOrderPos item) selectedItems.

Lemma minDistances_foldl (it : WaveformItem) (selectedItems : list WaveformItem) (a b : Q) :
  let step := λ '(minDistanceFromSceneLeftEdge, minDistanceFromSceneRightEdge) item,
    if getOrderPos item <? getOrderPos it then
      (minDistanceFromSceneLeftEdge + Qt.width (rect item),
       minDistanceFromSceneRightEdge)%Q
    else if getOrderPos it <? getOrderPos item then
      (minDistanceFromSceneLeftEdge,
       minDistanceFromSceneRightEdge + Qt.width (rect item))%Q
    else (minDistanceFromSceneLeftEdge, minDistanceFromSceneRightEdge) in
  ((foldl step (a, b) selectedItems).1 == a + widthBefore it selectedItems)%Q
  ∧ ((foldl step (a, b) selectedItems).2 == b + widthAfter it selectedItems)%Q.
Proof.
  intros step. revert a b.
  induction selectedItems as [|item items IH]; intros a b.
  - simpl. split; ring.
  - cbn [foldl]. unfold widthBefore, widthAfter, cumulativeWidth. cbn [foldr].
    fold (cumulativeWidth (λ item, getOrderPos item <? getOrderPos it) items).
    fold (cumulativeWidth (λ item, getOrderPos it <? getOrderPos item) items).
    fold (widthBefore it items). fold (widthAfter it items).
    unfold step at 2 4.
    destruct (Z.ltb_spec (getOrderPos item) (getOrderPos it)).
    + rewrite (proj2 (Z.ltb_ge (getOrderPos it) (getOrderPos item))) by lia.
      destruct (IH (a + Qt.width (rect item))%Q b) as [-> ->]. split; ring.
    + destruct (Z.ltb_spec (getOrderPos it) (getOrderPos item)).
      * destruct (IH a (b + Qt.width (rect item))%Q) as [-> ->]. split; ring.
      * destruct (IH a b) as [-> ->]. split; ring.
Qed.

Lemma minDistancesFromSceneEdges_eq (it : WaveformItem) (selectedItems : list WaveformItem) :
  ((minDistancesFromSceneEdges it selectedItems).1 == widthBefore it selectedItems)%Q
  ∧ ((minDistancesFromSceneEdges it selectedItems).2 == widthAfter it selectedItems)%Q.
Proof.
  destruct (minDistances_foldl it selectedItems 0 0) as [H1 H2].
  unfold minDistancesFromSceneEdges. rewrite H1, H2. split; ring.
Qed.

(** C4 (amended): on a proposed position change of a selected item in a
    scene, the y position becomes the height of the ruler whatever was
    proposed.  With L the cumulative width of the other selected items
    whose order position is smaller than its own and R that of those whose
    order position is greater: a proposed x below L becomes L; otherwise,
    when the right edge (x + width - 1) would exceed the scene width minus
    R, x becomes scene width - R - width; otherwise x is kept.  When the
    selected items fit in the scene (L + width + R at most the scene
    width), the new x is at least L and the new right edge at most the
    scene width minus R. *)
Theorem itemChange_position_clamped (it : WaveformItem) (value : Qt.QVariant)
    (scene : WaveGraphicsScene) :
  isSelected it = true →
  let selectedItems := getSelectedWaveforms scene in
  let L := widthBefore it selectedItems in
  let R := widthAfter it selectedItems in
  let width := Qt.width (rect it) in
  let sceneWidth := Qt.width (sceneRect scene) in
  let proposed := Qt.toPointF value in
  ∃ newPos,
    itemChange it Qt.ItemPositionChange value (Some scene) = (it, Qt.VPointF newPos)
    ∧ Qt.y newPos = BpmRuler.HEIGHT
    ∧ ((Qt.x proposed < L)%Q → (Qt.x newPos == L)%Q)
    ∧ ((L <= Qt.x proposed)%Q → (sceneWidth - R < Qt.x proposed + width - 1)%Q →
       (Qt.x newPos == sceneWidth - R - width)%Q)
    ∧ ((L <= Qt.x proposed)%Q → (Qt.x proposed + width - 1 <= sceneWidth - R)%Q →
       Qt.x newPos = Qt.x proposed)
    ∧ ((L + width + R <= sceneWidth)%Q →
       (L <= Qt.x newPos)%Q ∧ (Qt.x newPos + width - 1 <= sceneWidth - R)%Q).
Proof.
  intros Hsel selectedItems L R width sceneWidth proposed.
  unfold itemChange. rewrite Hsel. fold selectedItems.
  destruct (minDistancesFromSceneEdges_eq it selectedItems) as [HL HR].
  fold L in HL. fold R in HR.
  destruct (minDistancesFromSceneEdges it selectedItems) as [minL minR].
  cbn [fst snd] in HL, HR. fold proposed width sceneWidth.
  eexists. split; [reflexivity|]. split; [done|].
  destruct (Qlt_bool (Qt.x proposed) minL) eqn:E1;
    [apply Qlt_bool_iff in E1 | apply Qlt_bool_false in E1].
  - cbn. rewrite HL in E1. repeat split; intros; try lra.
  - destruct (Qlt_bool (sceneWidth - minR) (Qt.x proposed + width - 1)) eqn:E2;
      [apply Qlt_bool_iff in E2 | apply Qlt_bool_false in E2];
      cbn; rewrite HL in E1; rewrite HR in E2; repeat split; intros; try lra; try done.
Qed.

(** *** Mouse events *)

(** The finalized reorder notifications of a list of effects, in order. *)
Definition finalizedReorders (tr : list Effect) : list (list Z * Z) :=
  omap (λ e, match e with
             | Emit (orderPosHasChanged old n) => Some (old, n)
             | _ => None
             end) tr.

(** The order positions of its finished-moving notifications, in order. *)
Definition finishedMoves (tr : list Effect) : list Z :=
  omap (λ e, match e with
             | Emit (finishedMoving p) => Some p
             | _ => None
             end) tr.

(** The in-progress reorder proposals of a list of effects, in order. *)
Definition reorderProposals (tr : list Effect) : list (list Z * Z) :=
  omap (λ e, match e with
             | Emit (orderPosIsChanging positions n) => Some (positions, n)
             | _ => None
             end) tr.

Lemma finishedMoves_map (selectedItems : list WaveformItem) :
  finishedMoves (map (λ item, Emit (finishedMoving (getOrderPos item))) selectedItems)
  = map getOrderPos selectedItems.
Proof. induction selectedItems as [|i l IH]; [done|]. cbn. f_equal. exact IH. Qed.

Lemma finalizedReorders_map (selectedItems : list WaveformItem) :
  finalizedReorders (map (λ item, Emit (finishedMoving (getOrderPos item))) selectedItems)
  = [].
Proof. induction selectedItems as [|i l IH]; [done|]. cbn. exact IH. Qed.

(** C5: on mouse release a finalized reorder notification is emitted
    exactly when the current order position differs from the one recorded
    at the press, and then once; it carries the displacement (current minus
    recorded position) and, for every selected item in turn, its current
    order position minus the displacement, so that each carried position
    plus the displacement is the current position of its item.  In both
    cases a finished-moving notification with its current order position is
    emitted for every selected item, after the finalized one. *)
Theorem mouseReleaseEvent_notifications (it : WaveformItem)
    (event : Qt.QGraphicsSceneMouseEvent) (scene : WaveGraphicsScene) :
  let tr := mouseReleaseEvent it event scene in
  let selectedItems := getSelectedWaveforms scene in
  let numPlacesMoved := m_currentOrderPos it - m_orderPosBeforeMove it in
  let oldOrderPositions := map (λ item, getOrderPos item - numPlacesMoved) selectedItems in
  (m_currentOrderPos it ≠ m_orderPosBeforeMove it ↔ finalizedReorders tr ≠ [])
  ∧ (m_currentOrderPos it ≠ m_orderPosBeforeMove it →
     finalizedReorders tr = [(oldOrderPositions, numPlacesMoved)])
  ∧ (m_currentOrderPos it = m_orderPosBeforeMove it → finalizedReorders tr = [])
  ∧ map (λ old, old + numPlacesMoved) oldOrderPositions = map getOrderPos selectedItems
  ∧ finishedMoves tr = map getOrderPos selectedItems
  ∧ (∃ reorder,
       tr = BaseMouseRelease event :: reorder
              ++ map (λ item, Emit (finishedMoving (getOrderPos item))) selectedItems
       ∧ finishedMoves reorder = []).
Proof.
  intros tr selectedItems numPlacesMoved oldOrderPositions.
  subst tr. unfold mouseReleaseEvent. fold selectedItems numPlacesMoved oldOrderPositions.
  assert (map (λ old, old + numPlacesMoved) oldOrderPositions
          = map getOrderPos selectedItems) as Hround.
  { subst oldOrderPositions. rewrite map_map. apply map_ext. intros item. lia. }
  pose proof (finalizedReorders_map selectedItems) as Hfin.
  pose proof (finishedMoves_map selectedItems) as Hmov.
  unfold finalizedReorders, finishedMoves in *.
  rewrite !omap_app, Hfin, Hmov.
  destruct (Z.eqb_spec (m_orderPosBeforeMove it) (m_currentOrderPos it)) as [Heq|Hne];
    cbn.
  - repeat split; try done; try congruence.
    exists []. done.
  - repeat split; try done; try congruence.
    eexists [_]. done.
Qed.

(** C10: a mouse press, whatever the flags of the item and the button,
    first replaces the modifiers of the event by the modifiers without the
    Control bit; the event the handler leaves, and the event it passes to
    the handler of the base class, carry no Control modifier, and every
    other modifier bit is unchanged. *)
Theorem mousePressEvent_clears_control (it : WaveformItem)
    (event : Qt.QGraphicsSceneMouseEvent) :
  let result := mousePressEvent it event in
  let event' := result.1.2 in
  Qt.modifiers event' = Z.land (Qt.modifiers event) (Z.lnot Qt.ControlModifier)
  ∧ Z.land (Qt.modifiers event') Qt.ControlModifier = 0
  ∧ Z.testbit (Qt.modifiers event') 26 = false
  ∧ (∀ n, 0 <= n → n ≠ 26 →
       Z.testbit (Qt.modifiers event') n = Z.testbit (Qt.modifiers event) n)
  ∧ (∀ e, BaseMousePress e ∈ result.2 →
       e = event' ∧ Z.land (Qt.modifiers e) Qt.ControlModifier = 0).
Proof.
  intros result event'.
  assert (Qt.modifiers event'
          = Z.land (Qt.modifiers event) (Z.lnot Qt.ControlModifier)) as Hm.
  { subst event' result. unfold mousePressEvent.
    repeat (match goal with |- context [if ?b then _ else _] => destruct b end);
      reflexivity. }
  assert (Z.land (Qt.modifiers event') Qt.ControlModifier = 0) as Hc.
  { rewrite Hm, <- Z.land_assoc, (Z.land_comm (Z.lnot _)), Z.land_lnot_diag.
    apply Z.land_0_r. }
  split; [done|]. split; [done|]. split; [|split].
  - rewrite Hm, Z.land_spec, Z.lnot_spec by lia. change Qt.ControlModifier with (2 ^ 26).
    rewrite Z.pow2_bits_true by lia. apply andb_false_r.
  - intros n Hn Hne. rewrite Hm, Z.land_spec, Z.lnot_spec by lia.
    change Qt.ControlModifier with (2 ^ 26).
    rewrite Z.pow2_bits_false by lia. apply andb_true_r.
  - intros e He. assert (e = event') as ->; [|done].
    subst event' result. unfold mousePressEvent in *.
    repeat (match goal with H : context [if ?b then _ else _] |- _ => destruct b end);
      cbn in He |- *;
      repeat (apply elem_of_cons in He as [He|He]; try discriminate He);
      try (by apply elem_of_nil in He).
    by inversion He.
Qed.

(** The condition of a swap proposal for a drag to the left: the occupant
    is a waveform item other than the dragged one, of smaller order
    position than the leftmost selected item, whose horizontal midpoint
    the left edge of the leftmost selected item has passed. *)
Definition leftSwapCondition (it leftmost : WaveformItem) (occupant : SceneItem)
    (other : WaveformItem) : Prop :=
  occupant = Waveform other
  ∧ this other ≠ this it
  ∧ getOrderPos other < getOrderPos leftmost
  ∧ (Qt.x (scenePos leftmost)
     < Qt.x (scenePos other) + Qt.x (Qt.center (rect other)))%Q.

(** C6: during a drag to the left, with the leftmost selected item and the
    item the scene returns last at its scene position (the occupant), the
    handler emits one in-progress reorder proposal when the occupant is a
    waveform item other than the dragged one, of strictly smaller order
    position, whose horizontal midpoint the left edge of the leftmost
    selected item has passed, and none otherwise.  The proposal carries the
    current order position of every selected item and the occupant's order
    position minus that of the leftmost selected item; this is -1 when the
    occupant is the item just before it. *)
Theorem mouseMoveEvent_left_proposal (it : WaveformItem)
    (event : Qt.QGraphicsSceneMouseEvent) (scene : WaveGraphicsScene)
    (leftmost : WaveformItem) (occupant : SceneItem) :
  Qt.screenPos_x event < Qt.lastScreenPos_x event →
  head (getSelectedWaveforms scene) = Some leftmost →
  last (items scene (scenePos leftmost)) = Some occupant →
  (itemType occupant = WaveformItem_Type → ∃ other, occupant = Waveform other) →
  let positions := map getOrderPos (getSelectedWaveforms scene) in
  ∃ tr,
    mouseMoveEvent it event scene = Some (BaseMouseMove event :: tr)
    ∧ (∀ other, leftSwapCondition it leftmost occupant other →
         tr = [Emit (orderPosIsChanging positions
                       (getOrderPos other - getOrderPos leftmost))])
    ∧ (∀ other, leftSwapCondition it leftmost occupant other →
         getOrderPos other = getOrderPos leftmost - 1 →
         tr = [Emit (orderPosIsChanging positions (-1))])
    ∧ ((¬ ∃ other, leftSwapCondition it leftmost occupant other) → tr = [])
    ∧ (reorderProposals tr ≠ [] ↔ ∃ other, leftSwapCondition it leftmost occupant other).
Proof.
  intros Hleft Hhead Hocc Hcast positions.
  unfold mouseMoveEvent.
  rewrite (proj2 (Z.ltb_lt _ _) Hleft).
  rewrite (proj2 (Z.ltb_ge (Qt.lastScreenPos_x event) (Qt.screenPos_x event))) by lia.
  unfold draggedToLeft. rewrite Hhead. cbn [mbind option_bind]. rewrite Hocc.
  cbn [mbind option_bind]. fold positions.
  assert (∀ other, leftSwapCondition it leftmost occupant other →
            occupant = Waveform other ∧ this other ≠ this it
            ∧ getOrderPos other < getOrderPos leftmost
            ∧ (Qt.x (scenePos leftmost)
               < Qt.x (scenePos other) + Qt.x (Qt.center (rect other)))%Q) as Hcond
    by (intros other H; exact H).
  destruct (Z.eqb_spec (itemAddr occupant) (this it)) as [Haddr|Haddr]; cbn [negb andb].
  { eexists. split; [reflexivity|].
    assert (¬ ∃ other, leftSwapCondition it leftmost occupant other) as Hno.
    { intros (other & -> & Hne & _). by apply Hne. }
    repeat split; try done.
    - intros other H. destruct Hno. by exists other.
    - intros other H. destruct Hno. by exists other. }
  destruct (Z.eqb_spec (itemType occupant) WaveformItem_Type) as [Hty|Hty].
  2: { eexists. split; [reflexivity|].
    assert (¬ ∃ other, leftSwapCondition it leftmost occupant other) as Hno.
    { intros (other & -> & _). by apply Hty. }
    repeat split; try done.
    - intros other H. destruct Hno. by exists other.
    - intros other H. destruct Hno. by exists other. }
  destruct (Hcast Hty) as [other ->]. unfold qgraphicsitem_cast.
  cbn [itemType]. rewrite Z.eqb_refl. cbn [mbind option_bind].
  cbn [itemAddr] in Haddr.
  destruct (Z.ltb_spec (getOrderPos other) (getOrderPos leftmost)) as [Hlt|Hge].
  2: { eexists. split; [reflexivity|].
    assert (¬ ∃ o, leftSwapCondition it leftmost (Waveform other) o) as Hno.
    { intros (o & [= <-] & _ & Ho & _). lia. }
    repeat split; try done.
    - intros o H. destruct Hno. by exists o.
    - intros o H. destruct Hno. by exists o. }
  destruct (Qlt_bool (Qt.x (scenePos leftmost))
              (Qt.x (scenePos other) + Qt.x (Qt.center (rect other)))) eqn:Hmid;
    [apply Qlt_bool_iff in Hmid | apply Qlt_bool_false in Hmid].
  - eexists. split; [reflexivity|]. split; [|split; [|split; [|split]]].
    + intros o (Ho & _). by inversion Ho.
    + intros o (Ho & _) Hone. inversion Ho; subst.
      assert (getOrderPos o - getOrderPos leftmost = -1) as -> by lia. done.
    + intros Hno. destruct Hno. exists other. done.
    + intros _. exists other. done.
    + intros _. done.
  - eexists. split; [reflexivity|].
    assert (¬ ∃ o, leftSwapCondition it leftmost (Waveform other) o) as Hno.
    { intros (o & [= <-] & _ & _ & Ho). lra. }
    repeat split; try done.
    + intros o H. destruct Hno. by exists o.
    + intros o H. destruct Hno. by exists o.
Qed.

(** ** Further properties of the renderer *)

(** *** What the cache holds *)

(** The minimum and maximum [findMinMaxSamples] asks of the buffer for a bin. *)
Definition binMinMax (it : WaveformItem) (chanNum : nat) (binNum : Z) : Juce.Range :=
  Juce.findMinMax (m_sampleBuffer it) chanNum
                  (Qtrunc (inject_Z binNum * m_binSize it)) (Qtrunc (m_binSize it)).

(** The values the drawing code reads for a bin. *)
Definition cachedMin (it : WaveformItem) (chanNum : nat) (binNum : Z) : Q :=
  Juce.get binNum (default [] (m_minSampleValues it !! chanNum)).
Definition cachedMax (it : WaveformItem) (chanNum : nat) (binNum : Z) : Q :=
  Juce.get binNum (default [] (m_maxSampleValues it !! chanNum)).

Definition binCached (it : WaveformItem) (chanNum : nat) (binNum : Z) : Prop :=
  cachedMin it chanNum binNum = Juce.getStart (binMinMax it chanNum binNum)
  ∧ cachedMax it chanNum binNum = Juce.getEnd (binMinMax it chanNum binNum).













Lemma fillRanges_in_bounds (it : WaveformItem) (l r : Q) :
  binCacheOk it →
  (0 < m_globalScaleFactor it)%Q →
  (0 <= l)%Q → (l <= r)%Q → (r <= Qt.width (rect it))%Q →
  Forall (λ '(a, b), b < a ∨ (0 <= a ∧ b < m_numBins it)) (fillRanges it l r).
Proof.
  intros (Hn & _ & _ & _ & _ & Hrange) Hs Hl Hlr Hr.
  destruct (visibleBins_bounds it l r Hn Hs Hl Hlr Hr) as (Hfv & Hlv & Hfl).
  unfold fillRanges. destruct (calculatedBinsNotSet it) eqn:Hns.
  - apply Forall_singleton. lia.
  - specialize (Hrange eq_refl). apply Forall_app. split.
    + destruct (Z.ltb_spec (firstVisibleBin it l) (m_firstCalculatedBin it));
        [apply Forall_singleton; lia|constructor].
    + destruct (Z.ltb_spec (m_lastCalculatedBin it) (lastVisibleBin it r));
        [apply Forall_singleton; lia|constructor].
Qed.




(** Every bin of the calculated range holds the minimum and maximum of its
    frames. *)
Definition cacheValid (it : WaveformItem) : Prop :=
  calculatedBinsNotSet it = false →
  ∀ chanNum binNum,
    (chanNum < Juce.getNumChannels (m_sampleBuffer it))%nat →
    m_firstCalculatedBin it <= binNum <= m_lastCalculatedBin it →
    binCached it chanNum binNum.




(** *** The effects of a paint, in order *)

(** The painter calls of [paint] before and after the waveform. *)
Definition paintPrologue (it : WaveformItem) (numChans : nat) : list Effect :=
  [Painter (setPen Qt.NoPen); Painter (setBrush (brush it)); Painter (drawRect (rect it));
   Painter save;
   Painter (scale 1 (Qt.height (rect it) * (1 # 2) / inject_Z (Z.of_nat numChans))%Q)]
  ++ ([Painter save; Painter (translate 0 1); Painter (setPen m_centreLinePen)]
      ++ flat_map (λ _ : nat,
           [Painter (drawLine (Qt.mkPointF 0 0) (Qt.mkPointF (Qt.width (rect it)) 0));
            Painter (translate 0 (1 * inject_Z (Z.of_nat numChans))%Q)]) (seq 0 numChans)
      ++ [Painter restore])
  ++ [Painter (translate 0 1); Painter (setPen m_wavePen)].

Definition paintEpilogue (it : WaveformItem) (selected : bool) : list Effect :=
  [Painter restore]
  ++ (if selected
      then [Painter (setBrush (Qt.SolidColor 255 127 127 70)); Painter (drawRect (rect it))]
      else []).

Lemma paint_inv (it : WaveformItem) (m11 : Q) (styleOption : Qt.QStyleOptionGraphicsItem)
    (it2 : WaveformItem) (tr2 : list Effect) :
  paint it m11 styleOption = Some (it2, tr2) →
  let it1 := (checkScaleFactor it m11).1 in
  let l := Qt.left (Qt.exposedRect styleOption) in
  let r := Qt.right (Qt.exposedRect styleOption) in
  ∃ wave,
    tr2 = (checkScaleFactor it m11).2
          ++ paintPrologue it1 (Juce.getNumChannels (m_sampleBuffer it))
          ++ wave ++ paintEpilogue it2 (Qt.state_Selected styleOption)
    ∧ match m_detailLevel it1 with
      | VERY_HIGH => it2 = it1 ∧ drawWaveformFromSamples it1 l r = Some wave
      | _ => it2 = (fillVisibleBins it1 l r).1
             ∧ ∃ d, drawSampleBins it2 l r = Some d
                    ∧ wave = (fillVisibleBins it1 l r).2 ++ d
      end.
Proof.
  unfold paint. destruct (checkScaleFactor it m11) as [it1 tr0]. cbn [fst snd].
  intros H. apply bind_Some in H as ([it3 wave] & Hw & [= <- <-]).
  exists wave. split.
  { unfold paintPrologue, paintEpilogue. by rewrite <- !app_assoc. }
  unfold drawWaveformFromSampleBins in Hw.
  destruct (m_detailLevel it1);
    [destruct (fillVisibleBins it1 _ _) as [it4 tr4] eqn:Hf..|];
    apply bind_Some in Hw as (tr' & Hd & [= <- <-]); cbn [fst snd].
  - split; [done|]. by exists tr'.
  - split; [done|]. by exists tr'.
  - done.
Qed.

Lemma paint_bins_trace (it : WaveformItem) (m11 : Q)
    (styleOption : Qt.QStyleOptionGraphicsItem) (d : list Effect) :
  let it1 := (checkScaleFactor it m11).1 in
  let l := Qt.left (Qt.exposedRect styleOption) in
  let r := Qt.right (Qt.exposedRect styleOption) in
  let it2 := (fillVisibleBins it1 l r).1 in
  m_detailLevel it1 ≠ VERY_HIGH →
  drawSampleBins it2 l r = Some d →
  paint it m11 styleOption
  = Some (it2, (checkScaleFactor it m11).2
               ++ paintPrologue it1 (Juce.getNumChannels (m_sampleBuffer it))
               ++ ((fillVisibleBins it1 l r).2 ++ d)
               ++ paintEpilogue it2 (Qt.state_Selected styleOption)).
Proof.
  intros it1 l r it2 Hd Hdraw. subst it2. unfold paint.
  subst it1. destruct (checkScaleFactor it m11) as [it1 tr0]. cbn [fst snd] in *.
  unfold drawWaveformFromSampleBins. fold l r.
  destruct (fillVisibleBins it1 l r) as [it2 tr2]. cbn [fst snd] in *.
  unfold paintPrologue, paintEpilogue.
  destruct (m_detailLevel it1); [..|done]; rewrite Hdraw; cbn [mbind option_bind];
    by rewrite <- !app_assoc.
Qed.

(** The state a bin-based paint draws from, after the test of the scale
    factor. *)
Lemma checkScaleFactor_ok (it : WaveformItem) (m11 : Q) :
  (0 < m11)%Q →
  length (m_minSampleValues it) = Juce.getNumChannels (m_sampleBuffer it) →
  length (m_maxSampleValues it) = Juce.getNumChannels (m_sampleBuffer it) →
  (Qeq_bool (m_globalScaleFactor it) m11 = true → binCacheOk it) →
  let it1 := (checkScaleFactor it m11).1 in
  m_detailLevel it1 ≠ VERY_HIGH →
  binCacheOk it1 ∧ (0 < m_globalScaleFactor it1)%Q ∧ rect it1 = rect it
  ∧ m_sampleBuffer it1 = m_sampleBuffer it
  ∧ (Qeq_bool (m_globalScaleFactor it) m11 = true → it1 = it)
  ∧ (Qeq_bool (m_globalScaleFactor it) m11 = false →
     calculatedBinsNotSet it1 = true
     ∧ m_binSize it1
       = (inject_Z (Juce.getNumFrames (m_sampleBuffer it)) / (Qt.width (rect it) * m11))%Q
     ∧ m_globalScaleFactor it1 = m11).
Proof.
  intros Hm11 Hlm Hlx Hinv it1 Hd.
  subst it1. unfold checkScaleFactor in *.
  destruct (Qeq_bool (m_globalScaleFactor it) m11) eqn:E; cbn [negb fst] in *.
  - split; [by apply Hinv|]. split; [|done].
    apply Qeq_bool_iff in E. by rewrite E.
  - destruct (resetSampleBins_fields (set_globalScaleFactor m11 it))
      as (_ & Hbs & _ & Hf & _ & Hg & Hr' & Hb & _).
    split; [by apply resetSampleBins_ok|]. rewrite Hg, Hr', Hb.
    split; [done|]. split; [done|]. split; [done|]. split; [done|].
    intros _. split; [|done]. apply calculatedBinsNotSet_true. by left.
Qed.

Lemma drawSampleBins_defined (it : WaveformItem) (l r : Q) :
  m_detailLevel it ≠ VERY_HIGH →
  firstVisibleBin it l <= lastVisibleBin it r + 1 →
  ∃ d, drawSampleBins it l r = Some d.
Proof.
  intros Hd Hfl. unfold drawSampleBins.
  destruct (m_detailLevel it); [by eexists| |done].
  rewrite (proj2 (Z.ltb_ge _ 0)) by lia. by eexists.
Qed.

(** A bin-based paint of an exposed rectangle inside the item: the state it
    leaves and the drawing it makes. *)
Lemma paint_bins_defined (it : WaveformItem) (m11 : Q)
    (styleOption : Qt.QStyleOptionGraphicsItem) :
  NOT_SET < 0 → (0 < m11)%Q →
  let l := Qt.left (Qt.exposedRect styleOption) in
  let r := Qt.right (Qt.exposedRect styleOption) in
  (0 <= l)%Q → (l <= r)%Q → (r <= Qt.width (rect it))%Q →
  length (m_minSampleValues it) = Juce.getNumChannels (m_sampleBuffer it) →
  length (m_maxSampleValues it) = Juce.getNumChannels (m_sampleBuffer it) →
  (Qeq_bool (m_globalScaleFactor it) m11 = true → binCacheOk it) →
  let it1 := (checkScaleFactor it m11).1 in
  m_detailLevel it1 ≠ VERY_HIGH →
  let it2 := (fillVisibleBins it1 l r).1 in
  ∃ d,
    drawSampleBins it2 l r = Some d
    ∧ paint it m11 styleOption
      = Some (it2, (checkScaleFactor it m11).2
                   ++ paintPrologue it1 (Juce.getNumChannels (m_sampleBuffer it))
                   ++ ((fillVisibleBins it1 l r).2 ++ d)
                   ++ paintEpilogue it2 (Qt.state_Selected styleOption))
    ∧ binCacheOk it1 ∧ binCacheOk it2
    ∧ (0 < m_globalScaleFactor it1)%Q
    ∧ (r <= Qt.width (rect it1))%Q.
Proof.
  intros Hneg Hm11 l r Hl Hlr Hr Hlm Hlx Hinv it1 Hd it2.
  destruct (checkScaleFactor_ok it m11 Hm11 Hlm Hlx Hinv Hd) as (Hok & Hs & Hrect & _).
  fold it1 in Hok, Hs, Hrect. rewrite <- Hrect in Hr.
  destruct (fillVisibleBins_ok it1 l r Hneg Hok Hs Hl Hlr Hr) as (Hok2 & _).
  pose proof Hok as (Hn & _).
  destruct (visibleBins_bounds it1 l r Hn Hs Hl Hlr Hr) as (_ & _ & Hfl).
  destruct (fillVisibleBins_preserves it1 l r) as (_ & _ & _ & Hd2 & _).
  destruct (drawSampleBins_defined it2 l r) as [d Hdraw].
  { subst it2. by rewrite Hd2. }
  { subst it2. by rewrite firstVisibleBin_fill, lastVisibleBin_fill. }
  exists d. split; [done|]. split; [by apply paint_bins_trace|]. done.
Qed.


(** Projections of the effects of a paint: painter calls, signals and
    queries contribute only to the projections that read them. *)
Lemma omap_none {A B} (f : A → option B) (l : list A) :
  Forall (λ e, f e = None) l → omap f l = [].
Proof.
  induction 1 as [|e l He _ IH]; [done|]. cbn. by rewrite He.
Qed.

Lemma omap_paintPrologue {A} (f : Effect → option A) (it : WaveformItem) (numChans : nat) :
  (∀ c, f (Painter c) = None) → omap f (paintPrologue it numChans) = [].
Proof.
  intros Hf. apply omap_none. unfold paintPrologue.
  repeat first [apply Forall_app; split | apply Hf | constructor].
  apply Forall_flat_map. intros _ _.
  repeat first [apply Hf | constructor].
Qed.

Lemma omap_paintEpilogue {A} (f : Effect → option A) (it : WaveformItem) (selected : bool) :
  (∀ c, f (Painter c) = None) → omap f (paintEpilogue it selected) = [].
Proof.
  intros Hf. apply omap_none. unfold paintEpilogue.
  destruct selected; repeat first [apply Forall_app; split | apply Hf | constructor].
Qed.

Lemma omap_checkScaleFactor {A} (f : Effect → option A) (it : WaveformItem) (m11 : Q) :
  (∀ s, f (Emit s) = None) → omap f (checkScaleFactor it m11).2 = [].
Proof.
  intros Hf. apply omap_none. unfold checkScaleFactor. destruct (negb _); [|by constructor].
  unfold resetSampleBins. repeat (destruct (Qle_bool _ _)); cbn;
    repeat first [apply Hf | constructor].
Qed.

Lemma omap_fill {A} (f : Effect → option A) (it : WaveformItem) (l r : Q) :
  (∀ c b s n, f (QueryMinMax c b s n) = None) → omap f (fillVisibleBins it l r).2 = [].
Proof.
  intros Hf. apply omap_none. rewrite fillVisibleBins_eq. cbn [snd].
  apply Forall_flat_map. intros [a b] _.
  unfold queriesOf. apply Forall_flat_map. intros c _.
  apply Forall_fmap, Forall_forall. intros x _. apply Hf.
Qed.





Lemma Forall_omap_impl {A B} (f : A → option B) (P : A → Prop) (R : B → Prop)
    (l : list A) :
  (∀ e y, P e → f e = Some y → R y) → Forall P l → Forall R (omap f l).
Proof.
  intros HPR. induction 1 as [|e l He _ IH]; [constructor|].
  cbn. destruct (f e) as [y|] eqn:E; [|exact IH].
  constructor; [by apply (HPR e)|exact IH].
Qed.

(** The bin-based drawing only reads the cache and calls the painter. *)
Lemma omap_drawSampleBins {A} (f : Effect → option A) (it : WaveformItem) (l r : Q)
    (d : list Effect) :
  (∀ c, f (Painter c) = None) → (∀ c i, f (ReadBin c i) = None) →
  drawSampleBins it l r = Some d → omap f d = [].
Proof.
  intros Hp Hr H. apply omap_none. revert H. unfold drawSampleBins.
  destruct (m_detailLevel it).
  - intros [= <-]. apply Forall_flat_map. intros c _. apply Forall_app. split.
    + apply Forall_flat_map. intros count _. unfold binPoints. cbv beta iota zeta.
      repeat first [apply Hp | apply Hr | constructor].
    + repeat first [apply Hp | constructor].
  - destruct (_ <? 0); [done|]. intros [= <-].
    apply Forall_flat_map. intros c _. apply Forall_app. split.
    + apply Forall_fmap, Forall_forall. intros x _. apply Hr.
    + repeat first [apply Hp | constructor].
  - intros [= <-]. constructor.
Qed.

(** *** The frames of the bins *)

Lemma Qfloor_add_le (x y : Q) : Qfloor x + Qfloor y <= Qfloor (x + y).
Proof.
  rewrite <- (Qfloor_Z (Qfloor x + Qfloor y)). apply Qfloor_resp_le.
  rewrite inject_Z_plus. pose proof (Qfloor_le x). pose proof (Qfloor_le y). lra.
Qed.

Lemma Qfloor_nonneg (x : Q) : (0 <= x)%Q → 0 <= Qfloor x.
Proof. intros H. change 0 with (Qfloor 0). by apply Qfloor_resp_le. Qed.

(** Successive bins start at least a whole bin apart. *)
Lemma binFrames_apart (bs : Q) (b1 b2 : Z) :
  (0 <= bs)%Q → 0 <= b1 → b1 < b2 →
  Qtrunc (inject_Z b1 * bs) + Qtrunc bs <= Qtrunc (inject_Z b2 * bs).
Proof.
  intros Hbs H1 H12.
  assert (0 <= inject_Z b1)%Q as Hq1 by (change 0%Q with (inject_Z 0); by rewrite <- Zle_Qle).
  assert (inject_Z b1 + 1 <= inject_Z b2)%Q as Hq12.
  { change 1%Q with (inject_Z 1). rewrite <- inject_Z_plus, <- Zle_Qle. lia. }
  rewrite !Qtrunc_nonneg by nra.
  etrans; [apply Qfloor_add_le|]. apply Qfloor_resp_le. nra.
Qed.

(** With the bin size [resetSampleBins] computes, the frames of every bin
    below [numBins] lie inside the buffer. *)
Lemma binFrames_inside (numFrames : Z) (product bs : Q) (b : Z) :
  0 <= numFrames → (0 < product)%Q → (bs == inject_Z numFrames / product)%Q →
  0 <= b < Qtrunc product →
  (0 <= bs)%Q
  ∧ 0 <= Qtrunc (inject_Z b * bs) ∧ 0 <= Qtrunc bs
  ∧ Qtrunc (inject_Z b * bs) + Qtrunc bs <= numFrames.
Proof.
  intros HN Hp Hbs Hb.
  assert (bs * product == inject_Z numFrames)%Q as Hmul.
  { rewrite Hbs, Qmult_comm. apply Qmult_div_r. lra. }
  assert (0 <= inject_Z numFrames)%Q as HNq
    by (change 0%Q with (inject_Z 0); by rewrite <- Zle_Qle).
  assert (0 <= bs)%Q as Hbs0.
  { destruct (Qlt_le_dec bs 0) as [Hneg|]; [|done]. exfalso. nra. }
  assert (0 <= inject_Z b)%Q as Hq1 by (change 0%Q with (inject_Z 0); rewrite <- Zle_Qle; lia).
  assert (inject_Z b + 1 <= product)%Q as Hq2.
  { rewrite Qtrunc_nonneg in Hb by lra.
    pose proof (Qfloor_le product) as Hfl.
    assert (inject_Z b + 1 <= inject_Z (Qfloor product))%Q; [|lra].
    change 1%Q with (inject_Z 1). rewrite <- inject_Z_plus, <- Zle_Qle. lia. }
  split; [done|].
  rewrite !Qtrunc_nonneg by nra.
  split; [apply Qfloor_nonneg; nra|]. split; [by apply Qfloor_nonneg|].
  etrans; [apply Qfloor_add_le|].
  rewrite <- (Qfloor_Z numFrames). apply Qfloor_resp_le. nra.
Qed.

(** The channel, first frame and number of frames of every query of a list
    of effects, in order. *)
Definition queriedFrames (tr : list Effect) : list (nat * Z * Z) :=
  omap (λ e, match e with
             | QueryMinMax chanNum _ startFrame numFrames =>
                 Some (chanNum, startFrame, numFrames)
             | _ => None
             end) tr.

Lemma elem_of_queriesOf (it : WaveformItem) (startBin endBin : Z) (e : Effect) :
  e ∈ queriesOf it startBin endBin
  ↔ ∃ chanNum binNum, e = queryOf it chanNum binNum
      ∧ (chanNum < Juce.getNumChannels (m_sampleBuffer it))%nat
      ∧ startBin <= binNum <= endBin.
Proof.
  unfold queriesOf. rewrite list_elem_of_In, in_flat_map. split.
  - intros (c & Hc & Hin). apply in_map_iff in Hin as (b & <- & Hb).
    apply list_elem_of_In, elem_of_seqZ in Hb. apply in_seq in Hc.
    exists c, b. split; [done|]. lia.
  - intros (c & b & -> & Hc & Hb). exists c. split; [apply in_seq; lia|].
    apply in_map_iff. exists b. split; [done|].
    apply list_elem_of_In, elem_of_seqZ. lia.
Qed.

(** Every query of a fill is the query of a bin of the cache. *)
Lemma fillVisibleBins_queries (it : WaveformItem) (l r : Q) :
  binCacheOk it → (0 < m_globalScaleFactor it)%Q →
  (0 <= l)%Q → (l <= r)%Q → (r <= Qt.width (rect it))%Q →
  Forall (λ e, ∃ chanNum binNum, e = queryOf it chanNum binNum
                 ∧ (chanNum < Juce.getNumChannels (m_sampleBuffer it))%nat
                 ∧ 0 <= binNum < m_numBins it)
         (fillVisibleBins it l r).2.
Proof.
  intros Hok Hs Hl Hlr Hr. rewrite fillVisibleBins_eq. cbn [snd].
  pose proof (fillRanges_in_bounds it l r Hok Hs Hl Hlr Hr) as Hrs.
  rewrite Forall_forall in Hrs.
  apply Forall_flat_map. intros [a b] Hab. apply Forall_forall. intros e He.
  apply elem_of_queriesOf in He as (c & x & -> & Hc & Hx).
  exists c, x. split; [done|]. split; [done|].
  specialize (Hrs _ Hab). cbn in Hrs. lia.
Qed.

(** X3: every min/max query of a bin-based paint of an exposed rectangle
    inside the item asks for a run of frames inside the buffer: with the bin
    size the reset computes (frames / (width * scale factor); a paint at a
    changed scale factor computes it itself), the first frame of the run is
    not negative and the run ends at or before the last frame. *)
Theorem paint_queries_inside_buffer (it : WaveformItem) (m11 : Q)
    (styleOption : Qt.QStyleOptionGraphicsItem) :
  NOT_SET < 0 → (0 < m11)%Q →
  let l := Qt.left (Qt.exposedRect styleOption) in
  let r := Qt.right (Qt.exposedRect styleOption) in
  let numChans := Juce.getNumChannels (m_sampleBuffer it) in
  let numFrames := Juce.getNumFrames (m_sampleBuffer it) in
  (0 <= l)%Q → (l <= r)%Q → (r <= Qt.width (rect it))%Q →
  length (m_minSampleValues it) = numChans →
  length (m_maxSampleValues it) = numChans →
  0 <= numFrames →
  (Qeq_bool (m_globalScaleFactor it) m11 = true →
   binCacheOk it
   ∧ (m_binSize it == inject_Z numFrames / (Qt.width (rect it) * m_globalScaleFactor it))%Q) →
  m_detailLevel (checkScaleFactor it m11).1 ≠ VERY_HIGH →
  ∃ it' tr,
    paint it m11 styleOption = Some (it', tr)
    ∧ (m_binSize it' == inject_Z numFrames / (Qt.width (rect it') * m_globalScaleFactor it'))%Q
    ∧ Forall (λ '(chanNum, startFrame, count),
                (chanNum < numChans)%nat
                ∧ 0 <= startFrame ∧ 0 <= count ∧ startFrame + count <= numFrames)
             (queriedFrames tr).
Proof.
  intros Hneg Hm11 l r numChans numFrames Hl Hlr Hr Hlm Hlx HN Hinv Hd.
  destruct (paint_bins_defined it m11 styleOption Hneg Hm11 Hl Hlr Hr Hlm Hlx)
    as (d & Hdraw & Hpaint & Hok1 & Hok2 & Hs & Hr1); [by intros E; apply Hinv|done|].
  fold l r in Hdraw, Hpaint, Hok2, Hr1.
  destruct (checkScaleFactor_ok it m11 Hm11 Hlm Hlx) as (_ & _ & Hrect & Hbuf & Hsame & Hnew);
    [by intros E; apply Hinv|done|].
  set (it1 := (checkScaleFactor it m11).1) in *.
  set (it2 := (fillVisibleBins it1 l r).1) in *.
  assert (m_binSize it1
          == inject_Z numFrames / (Qt.width (rect it1) * m_globalScaleFactor it1))%Q as Hbs.
  { destruct (Qeq_bool (m_globalScaleFactor it) m11) eqn:E.
    - rewrite (Hsame eq_refl). by apply Hinv.
    - destruct (Hnew eq_refl) as (_ & -> & ->). by rewrite Hrect. }
  destruct (fillVisibleBins_preserves it1 l r) as (Hg2 & Hn2 & Hb2 & _ & _ & Hr2).
  fold it2 in Hg2, Hn2, Hb2, Hr2.
  eexists it2, _. split; [exact Hpaint|]. split; [by rewrite Hb2, Hg2, Hr2|].
  unfold queriedFrames. rewrite !omap_app.
  rewrite omap_checkScaleFactor, omap_paintPrologue, omap_paintEpilogue by done.
  rewrite (omap_drawSampleBins _ it2 l r d) by done.
  rewrite !app_nil_r. cbn [app].
  pose proof (fillVisibleBins_queries it1 l r Hok1 Hs Hl Hlr Hr1) as Hq.
  eapply Forall_omap_impl; [|exact Hq].
  intros e [[c s] n] (c' & b & -> & Hc & Hb) [= <- <- <-].
  destruct Hok1 as (Hn & _).
  assert (0 < Qt.width (rect it1) * m_globalScaleFactor it1)%Q as Hp.
  { destruct (Qlt_le_dec 0 (Qt.width (rect it1) * m_globalScaleFactor it1)) as [|Hle];
      [done|].
    exfalso. rewrite Qtrunc_nonpos in Hn by done.
    assert (Qceiling (Qt.width (rect it1) * m_globalScaleFactor it1) <= 0); [|lia].
    change 0 with (Qceiling 0). by apply Qceiling_resp_le. }
  rewrite Hn in Hb.
  destruct (binFrames_inside numFrames _ _ b HN Hp Hbs Hb) as (_ & H1 & H2 & H3).
  rewrite Hbuf in Hc. done.
Qed.

(** X4: the runs of frames [findMinMaxSamples] asks the buffer about do not
    overlap: for a bin size that is not negative and bins from 0 on, the run
    of a bin ends at or before the first frame of the run of every later
    bin. *)
Theorem findMinMaxSamples_runs_disjoint (startBin endBin : Z) (it : WaveformItem)
    (chan1 chan2 : nat) (bin1 bin2 start1 count1 start2 count2 : Z) :
  (0 <= m_binSize it)%Q → 0 <= startBin →
  QueryMinMax chan1 bin1 start1 count1 ∈ (findMinMaxSamples startBin endBin it).2 →
  QueryMinMax chan2 bin2 start2 count2 ∈ (findMinMaxSamples startBin endBin it).2 →
  bin1 < bin2 →
  0 <= start1 ∧ 0 <= count1 ∧ start1 + count1 <= start2.
Proof.
  intros Hbs Ha H1 H2 Hlt. rewrite findMinMaxSamples_eq in H1, H2. cbn [snd] in H1, H2.
  apply elem_of_queriesOf in H1 as (c1 & b1 & [= -> -> -> ->] & _ & Hb1).
  apply elem_of_queriesOf in H2 as (c2 & b2 & [= -> -> -> ->] & _ & Hb2).
  assert (0 <= inject_Z b1)%Q as Hq1 by (change 0%Q with (inject_Z 0); rewrite <- Zle_Qle; lia).
  split; [rewrite Qtrunc_nonneg by nra; apply Qfloor_nonneg; nra|].
  split; [rewrite Qtrunc_nonneg by done; by apply Qfloor_nonneg|].
  apply binFrames_apart; [done|lia|done].
Qed.



(** *** The signals and the painter state of a paint *)

(** The signals of a list of effects, in order. *)
Definition signals (tr : list Effect) : list Signal :=
  omap (λ e, match e with Emit s => Some s | _ => None end) tr.

(** The signals [resetSampleBins] emits for the detail level it chooses. *)
Definition detailLevelSignals (it : WaveformItem) : list Signal :=
  match m_detailLevel it with
  | VERY_HIGH =>
      sampleDetailLevelReached
        :: (if Qle_bool (m_binSize it) DETAIL_LEVEL_MAX_CUTOFF
            then [maxDetailLevelReached] else [])
  | _ => [sampleBinDetailLevelReached]
  end.

Lemma resetSampleBins_signals (it : WaveformItem) :
  (resetSampleBins it).2 = map Emit (detailLevelSignals (resetSampleBins it).1).
Proof.
  unfold resetSampleBins, detailLevelSignals. simpl.
  set (bs := (inject_Z _ / _)%Q).
  destruct (Qle_bool bs DETAIL_LEVEL_VERY_HIGH_CUTOFF) eqn:E1; simpl.
  - by destruct (Qle_bool bs DETAIL_LEVEL_MAX_CUTOFF).
  - destruct (Qle_bool bs DETAIL_LEVEL_HIGH_CUTOFF) eqn:E2;
      rewrite resizeSampleValues_eq; done.
Qed.

Lemma signals_app (tr1 tr2 : list Effect) :
  signals (tr1 ++ tr2) = signals tr1 ++ signals tr2.
Proof. apply omap_app. Qed.

Lemma signals_map_Emit (l : list Signal) : signals (map Emit l) = l.
Proof. induction l as [|s l IH]; [done|]. cbn. f_equal. exact IH. Qed.

(** The depth of the stack of saved painter states after a list of effects,
    from depth [depth]; [None] when a [restore] finds the stack empty. *)
Fixpoint saveDepth (tr : list Effect) (depth : nat) : option nat :=
  match tr with
  | [] => Some depth
  | Painter save :: tr => saveDepth tr (S depth)
  | Painter restore :: tr =>
      match depth with O => None | S depth => saveDepth tr depth end
  | _ :: tr => saveDepth tr depth
  end.

Lemma saveDepth_app (tr1 tr2 : list Effect) (depth : nat) :
  saveDepth (tr1 ++ tr2) depth = saveDepth tr1 depth ≫= saveDepth tr2.
Proof.
  revert depth. induction tr1 as [|e tr1 IH]; intros depth; [done|].
  destruct e as [s|c| | | | |]; cbn; try apply IH.
  destruct c; cbn; try apply IH. destruct depth; [done|apply IH].
Qed.

Lemma saveDepth_app_Some (tr1 tr2 : list Effect) (depth depth1 : nat) :
  saveDepth tr1 depth = Some depth1 →
  saveDepth (tr1 ++ tr2) depth = saveDepth tr2 depth1.
Proof. intros H. by rewrite saveDepth_app, H. Qed.

Definition keepsDepth (e : Effect) : Prop :=
  match e with Painter save | Painter restore => False | _ => True end.

Lemma saveDepth_keeps (tr : list Effect) (depth : nat) :
  Forall keepsDepth tr → saveDepth tr depth = Some depth.
Proof.
  induction 1 as [|e tr He _ IH]; [done|].
  destruct e as [s|c| | | | |]; cbn; try exact IH. by destruct c.
Qed.

(** What the drawing of the waveform does: reads of the cache, lines,
    polylines and translations. *)
Definition isDrawing (e : Effect) : Prop :=
  match e with
  | ReadBin _ _ | Painter (drawLine _ _) | Painter (drawPolyline _)
  | Painter (translate _ _) => True
  | _ => False
  end.

Lemma drawSampleBins_drawing (it : WaveformItem) (l r : Q) (d : list Effect) :
  drawSampleBins it l r = Some d → Forall isDrawing d.
Proof.
  unfold drawSampleBins. destruct (m_detailLevel it).
  - intros [= <-]. apply Forall_flat_map. intros c _. apply Forall_app. split.
    + apply Forall_flat_map. intros count _. unfold binPoints. cbv beta iota zeta.
      by repeat constructor.
    + by repeat constructor.
  - destruct (_ <? 0); [done|]. intros [= <-].
    apply Forall_flat_map. intros c _. apply Forall_app. split.
    + apply Forall_fmap, Forall_forall. by intros x _.
    + by repeat constructor.
  - intros [= <-]. constructor.
Qed.

Lemma drawWaveformFromSamples_drawing (it : WaveformItem) (l r : Q) (tr : list Effect) :
  drawWaveformFromSamples it l r = Some tr → Forall isDrawing tr.
Proof.
  unfold drawWaveformFromSamples. destruct (_ <? 0); [done|].
  intros H. apply bind_Some in H as (per & Hper & [= <-]).
  apply mapM_Some in Hper.
  induction Hper as [|c tr' cs trs Hc _ IH]; [constructor|].
  simpl. apply Forall_app. split; [|exact IH].
  apply bind_Some in Hc as (pts & _ & [= <-]). by repeat constructor.
Qed.

Lemma fillVisibleBins_keepsDepth (it : WaveformItem) (l r : Q) :
  Forall keepsDepth (fillVisibleBins it l r).2.
Proof.
  rewrite fillVisibleBins_eq. cbn [snd].
  apply Forall_flat_map. intros [a b] _.
  unfold queriesOf. apply Forall_flat_map. intros c _.
  apply Forall_fmap, Forall_forall. by intros x _.
Qed.

Lemma checkScaleFactor_keepsDepth (it : WaveformItem) (m11 : Q) :
  Forall keepsDepth (checkScaleFactor it m11).2.
Proof.
  unfold checkScaleFactor. destruct (negb _); [|constructor].
  rewrite resetSampleBins_signals. apply Forall_fmap, Forall_forall. by intros x _.
Qed.

Lemma saveDepth_paintPrologue (it : WaveformItem) (numChans depth : nat) :
  saveDepth (paintPrologue it numChans) depth = Some (S depth).
Proof.
  unfold paintPrologue. cbn [app saveDepth]. rewrite <- app_assoc, saveDepth_app.
  rewrite saveDepth_keeps; [done|].
  apply Forall_flat_map. intros _ _. by repeat constructor.
Qed.

Definition notSignal (e : Effect) : Prop :=
  match e with Emit _ => False | _ => True end.

Lemma paintPrologue_notSignal (it : WaveformItem) (numChans : nat) :
  Forall notSignal (paintPrologue it numChans).
Proof.
  unfold paintPrologue.
  repeat first [apply Forall_app; split | by constructor | constructor].
  apply Forall_flat_map. intros _ _. by repeat constructor.
Qed.

Lemma paintEpilogue_notSignal (it : WaveformItem) (selected : bool) :
  Forall notSignal (paintEpilogue it selected).
Proof. unfold paintEpilogue. destruct selected; by repeat constructor. Qed.

Lemma fillVisibleBins_notSignal (it : WaveformItem) (l r : Q) :
  Forall notSignal (fillVisibleBins it l r).2.
Proof.
  rewrite fillVisibleBins_eq. cbn [snd].
  apply Forall_flat_map. intros [a b] _.
  unfold queriesOf. apply Forall_flat_map. intros c _.
  apply Forall_fmap, Forall_forall. by intros x _.
Qed.

(** After the test of the scale factor a paint emits no signal, and the
    detail level and the bin size stay as the test left them. *)
Lemma paint_after_check (it : WaveformItem) (m11 : Q)
    (styleOption : Qt.QStyleOptionGraphicsItem) (it2 : WaveformItem) (tr2 : list Effect) :
  paint it m11 styleOption = Some (it2, tr2) →
  let it1 := (checkScaleFactor it m11).1 in
  m_detailLevel it2 = m_detailLevel it1 ∧ m_binSize it2 = m_binSize it1
  ∧ ∃ rest, tr2 = (checkScaleFactor it m11).2 ++ rest ∧ Forall notSignal rest.
Proof.
  intros Hpaint it1. destruct (paint_inv _ _ _ _ _ Hpaint) as (wave & -> & Hwave).
  fold it1 in Hwave.
  set (l := Qt.left (Qt.exposedRect styleOption)) in *.
  set (r := Qt.right (Qt.exposedRect styleOption)) in *.
  assert (∀ d, Forall isDrawing d → Forall notSignal d) as Hdk.
  { intros d Hd. eapply Forall_impl; [exact Hd|]. intros [s|[]| | | | |]; done. }
  assert (m_detailLevel it2 = m_detailLevel it1 ∧ m_binSize it2 = m_binSize it1
          ∧ Forall notSignal wave) as (Hd & Hb & Hw).
  { destruct (fillVisibleBins_preserves it1 l r) as (_ & _ & Hb & Hd & _).
    destruct (m_detailLevel it1) eqn:E.
    - destruct Hwave as (-> & d & Hdraw & ->). rewrite Hb, Hd. split; [done|]. split; [done|].
      apply Forall_app. split; [apply fillVisibleBins_notSignal|].
      eapply Hdk, drawSampleBins_drawing, Hdraw.
    - destruct Hwave as (-> & d & Hdraw & ->). rewrite Hb, Hd. split; [done|]. split; [done|].
      apply Forall_app. split; [apply fillVisibleBins_notSignal|].
      eapply Hdk, drawSampleBins_drawing, Hdraw.
    - destruct Hwave as (-> & Hdraw). rewrite E. split; [done|]. split; [done|].
      eapply Hdk, drawWaveformFromSamples_drawing, Hdraw. }
  split; [done|]. split; [done|]. eexists. split; [reflexivity|].
  apply Forall_app. split; [apply paintPrologue_notSignal|].
  apply Forall_app. split; [done|apply paintEpilogue_notSignal].
Qed.

(** X5: the signals of a paint.  A paint at the stored scale factor emits no
    signal.  A paint at another scale factor emits, before any painter
    call, the signal of the detail level it has chosen: for a bin-based
    level [sampleBinDetailLevelReached] alone; for VERY_HIGH
    [sampleDetailLevelReached], followed by [maxDetailLevelReached] when the
    bin size is at most the maximum cutoff.  Nothing after these is a
    signal. *)
Theorem paint_signals (it : WaveformItem) (m11 : Q)
    (styleOption : Qt.QStyleOptionGraphicsItem) (it' : WaveformItem) (tr : list Effect) :
  paint it m11 styleOption = Some (it', tr) →
  signals tr = (if Qeq_bool (m_globalScaleFactor it) m11 then []
                else detailLevelSignals it')
  ∧ ∃ rest, tr = map Emit (signals tr) ++ rest ∧ signals rest = [].
Proof.
  intros Hpaint.
  destruct (paint_after_check _ _ _ _ _ Hpaint) as (Hd & Hb & rest & -> & Hrest).
  assert (signals rest = []) as Hnone.
  { apply omap_none. eapply Forall_impl; [exact Hrest|]. by intros []. }
  assert ((checkScaleFactor it m11).2
          = map Emit (if Qeq_bool (m_globalScaleFactor it) m11 then []
                      else detailLevelSignals it')) as Hcheck.
  { unfold detailLevelSignals. rewrite Hd, Hb. unfold checkScaleFactor.
    destruct (Qeq_bool (m_globalScaleFactor it) m11); [done|]. cbn [negb].
    apply resetSampleBins_signals. }
  assert (signals ((checkScaleFactor it m11).2 ++ rest)
          = (if Qeq_bool (m_globalScaleFactor it) m11 then []
             else detailLevelSignals it')) as Hs.
  { rewrite signals_app, Hnone, app_nil_r, Hcheck. apply signals_map_Emit. }
  rewrite Hs. split; [done|]. exists rest. split; [by rewrite <- Hcheck|done].
Qed.

(** X6: the painter state of a paint.  Every [save] of a paint is matched
    by a later [restore] and no [restore] comes without a [save] before it:
    the painter is left with the stack of saved states it came with.  The
    highlight of a selected item is drawn after the last [restore], in the
    coordinates the painter came with, over the rect of the item. *)
Theorem paint_restores_painter (it : WaveformItem) (m11 : Q)
    (styleOption : Qt.QStyleOptionGraphicsItem) (it' : WaveformItem) (tr : list Effect)
    (depth : nat) :
  paint it m11 styleOption = Some (it', tr) →
  saveDepth tr depth = Some depth
  ∧ ∃ body,
      tr = body ++ (if Qt.state_Selected styleOption
                    then [Painter (setBrush (Qt.SolidColor 255 127 127 70));
                          Painter (drawRect (rect it'))]
                    else [])
      ∧ saveDepth body depth = Some depth
      ∧ last body = Some (Painter restore).
Proof.
  intros Hpaint. destruct (paint_inv _ _ _ _ _ Hpaint) as (wave & -> & Hwave).
  set (it1 := (checkScaleFactor it m11).1) in *.
  set (l := Qt.left (Qt.exposedRect styleOption)) in *.
  set (r := Qt.right (Qt.exposedRect styleOption)) in *.
  assert (Forall keepsDepth wave) as Hw.
  { assert (∀ d, Forall isDrawing d → Forall keepsDepth d) as Hdk.
    { intros d Hd. eapply Forall_impl; [exact Hd|]. intros [s|[]| | | | |]; done. }
    destruct (m_detailLevel it1).
    - destruct Hwave as (_ & d & Hdraw & ->). apply Forall_app. split.
      + apply fillVisibleBins_keepsDepth.
      + eapply Hdk, drawSampleBins_drawing, Hdraw.
    - destruct Hwave as (_ & d & Hdraw & ->). apply Forall_app. split.
      + apply fillVisibleBins_keepsDepth.
      + eapply Hdk, drawSampleBins_drawing, Hdraw.
    - destruct Hwave as (_ & Hdraw). eapply Hdk, drawWaveformFromSamples_drawing, Hdraw. }
  assert (saveDepth ((checkScaleFactor it m11).2
                     ++ paintPrologue it1 (Juce.getNumChannels (m_sampleBuffer it))
                     ++ wave ++ [Painter restore]) depth = Some depth) as Hbody.
  { rewrite (saveDepth_app_Some _ _ _ _
               (saveDepth_keeps _ depth (checkScaleFactor_keepsDepth it m11))).
    rewrite (saveDepth_app_Some _ _ _ _ (saveDepth_paintPrologue _ _ _)).
    by rewrite (saveDepth_app_Some _ _ _ _ (saveDepth_keeps _ (S depth) Hw)). }
  set (highlight := if Qt.state_Selected styleOption
                    then [Painter (setBrush (Qt.SolidColor 255 127 127 70));
                          Painter (drawRect (rect it'))]
                    else []).
  assert ((checkScaleFactor it m11).2
            ++ paintPrologue it1 (Juce.getNumChannels (m_sampleBuffer it))
            ++ wave ++ paintEpilogue it' (Qt.state_Selected styleOption)
          = ((checkScaleFactor it m11).2
               ++ paintPrologue it1 (Juce.getNumChannels (m_sampleBuffer it))
               ++ wave ++ [Painter restore]) ++ highlight) as ->.
  { unfold paintEpilogue. fold highlight. by rewrite <- !app_assoc. }
  split.
  - rewrite (saveDepth_app_Some _ _ _ _ Hbody). subst highlight.
    by destruct (Qt.state_Selected styleOption).
  - eexists. split; [reflexivity|]. split; [exact Hbody|].
    by rewrite !app_assoc, last_snoc.
Qed.


(** *** What a bin-based paint draws *)















(** *** Edges of the renderer *)

(** X8: drawing from the samples does not clamp the first visible frame.
    For an item of positive width over a buffer with frames and at least
    one channel, an exposed rectangle that starts left of the item (and ends
    in it or right of it) makes the first visible frame negative, so that
    the first sample read lies before the buffer: the drawing, and with it a
    paint at VERY_HIGH detail, has no defined result.  (The bin-based
    drawing clamps its first visible bin to 0.) *)
Theorem drawWaveformFromSamples_left_of_item (it : WaveformItem) (m11 : Q)
    (styleOption : Qt.QStyleOptionGraphicsItem) :
  let l := Qt.left (Qt.exposedRect styleOption) in
  let r := Qt.right (Qt.exposedRect styleOption) in
  let it1 := (checkScaleFactor it m11).1 in
  (0 < Qt.width (rect it))%Q →
  0 < Juce.getNumFrames (m_sampleBuffer it) →
  (0 < Juce.getNumChannels (m_sampleBuffer it))%nat →
  (l < 0)%Q → (0 <= r)%Q →
  m_detailLevel it1 = VERY_HIGH →
  firstVisibleFrame it1 l < 0
  ∧ drawWaveformFromSamples it1 l r = None
  ∧ paint it m11 styleOption = None.
Proof.
  intros l r it1 Hw HN Hc Hl Hr Hd.
  destruct (checkScaleFactor_geometry it m11) as [Hrect Hbuf]. fold it1 in Hrect, Hbuf.
  assert (0 < inject_Z (Juce.getNumFrames (m_sampleBuffer it)))%Q as HNq.
  { change 0%Q with (inject_Z 0). by rewrite <- Zlt_Qlt. }
  assert (0 < distanceBetweenFrames it1)%Q as Hdist.
  { unfold distanceBetweenFrames. rewrite Hrect, Hbuf.
    apply Qlt_shift_div_l; [done|]. lra. }
  assert (firstVisibleFrame it1 l < 0) as Hfirst.
  { unfold firstVisibleFrame.
    assert (l / distanceBetweenFrames it1 < 0)%Q as Hneg.
    { apply Qlt_shift_div_r; [done|]. lra. }
    pose proof (Qfloor_le (l / distanceBetweenFrames it1)) as Hfl.
    assert (inject_Z (Qfloor (l / distanceBetweenFrames it1)) < inject_Z 0)%Q as Hlt
      by (change (inject_Z 0) with 0%Q; lra).
    by rewrite <- Zlt_Qlt in Hlt. }
  assert (0 <= lastVisibleFrame it1 r) as Hlast.
  { unfold lastVisibleFrame. rewrite Hbuf.
    assert (0 <= Qceiling (r / distanceBetweenFrames it1)); [|lia].
    change 0 with (Qceiling 0). apply Qceiling_resp_le.
    apply Qle_shift_div_l; [done|]. lra. }
  assert (drawWaveformFromSamples it1 l r = None) as Hdraw.
  { unfold drawWaveformFromSamples.
    rewrite (proj2 (Z.ltb_ge _ 0)) by lia.
    rewrite Hbuf. destruct (Juce.getNumChannels (m_sampleBuffer it)) as [|n]; [lia|].
    cbn [seq]. unfold samplePoints.
    rewrite seqZ_cons by lia. unfold Juce.readSample.
    cbn -[seqZ seq firstVisibleFrame lastVisibleFrame distanceBetweenFrames Z.add].
    rewrite bool_decide_eq_false_2 by lia. done. }
  split; [done|]. split; [done|].
  unfold paint. subst it1. destruct (checkScaleFactor it m11) as [it1 tr0].
  cbn [fst snd] in *. fold l r. by rewrite Hd, Hdraw.
Qed.

Lemma resize_resize (n : Z) (a : Juce.Array) : Juce.resize n (Juce.resize n a) = Juce.resize n a.
Proof.
  unfold Juce.resize at 1. rewrite length_resize, Nat.sub_diag. cbn [replicate].
  rewrite app_nil_r. apply take_ge. by rewrite length_resize.
Qed.

Lemma resizeSampleValues_twice (n : Z) (numChans : nat) (arrays : list Juce.Array) :
  foldl (λ m chanNum, alter (Juce.resize n) chanNum m)
        (foldl (λ m chanNum, alter (Juce.resize n) chanNum m) arrays (seq 0 numChans))
        (seq 0 numChans)
  = foldl (λ m chanNum, alter (Juce.resize n) chanNum m) arrays (seq 0 numChans).
Proof.
  apply list_eq. intros i. rewrite !foldl_alter_seq_lookup.
  destruct (bool_decide _); [|done].
  destruct (arrays !! i) as [a|]; [|done]. cbn. by rewrite resize_resize.
Qed.

(** [resetSampleBins] with the product of the width and the scale factor
    and the number of frames it computes from. *)
Definition resetSampleBins_with (product : Q) (numFrames : Z) (it : WaveformItem)
    : WaveformItem * list Effect :=
  let it := set_calculatedBins NOT_SET NOT_SET it in
  let it := set_bins (Qtrunc product) (inject_Z numFrames / product)%Q it in
  if Qle_bool (m_binSize it) DETAIL_LEVEL_VERY_HIGH_CUTOFF then
    (set_detailLevel VERY_HIGH it,
     Emit sampleDetailLevelReached ::
       (if Qle_bool (m_binSize it) DETAIL_LEVEL_MAX_CUTOFF
        then [Emit maxDetailLevelReached] else []))
  else if Qle_bool (m_binSize it) DETAIL_LEVEL_HIGH_CUTOFF then
    (resizeSampleValues (set_detailLevel HIGH it), [Emit sampleBinDetailLevelReached])
  else
    (resizeSampleValues (set_detailLevel LOW it), [Emit sampleBinDetailLevelReached]).

(** X9: resetting the sample bins is idempotent: a second reset, with the
    rect, the scale factor and the buffer as they are, leaves the item as
    the first left it (the arrays, resized once, keep their size and their
    values) and emits the same signals. *)
Theorem resetSampleBins_idempotent (it : WaveformItem) :
  resetSampleBins (resetSampleBins it).1 = resetSampleBins it.
Proof.
  destruct (resetSampleBins_fields it) as (_ & _ & _ & _ & _ & Hg & Hr & Hb & _).
  cbv zeta in *.
  assert (∀ it0, resetSampleBins it0
                 = resetSampleBins_with (Qt.width (rect it0) * m_globalScaleFactor it0)%Q
                     (Juce.getNumFrames (m_sampleBuffer it0)) it0) as Heq by done.
  rewrite (Heq (resetSampleBins it).1), Hg, Hr, Hb. rewrite (Heq it).
  set (product := (Qt.width (rect it) * m_globalScaleFactor it)%Q).
  set (numFrames := Juce.getNumFrames (m_sampleBuffer it)).
  unfold resetSampleBins_with. cbn [m_binSize set_bins].
  set (bs := (inject_Z numFrames / product)%Q).
  destruct (Qle_bool bs DETAIL_LEVEL_VERY_HIGH_CUTOFF) eqn:E1.
  - done.
  - destruct (Qle_bool bs DETAIL_LEVEL_HIGH_CUTOFF) eqn:E2;
      cbn [fst]; rewrite !resizeSampleValues_eq; simpl;
      by rewrite !resizeSampleValues_twice.
Qed.


(** X11: the members the constructor leaves uninitialised are not read by
    the first paint.  Two new items that differ only in the values of
    [m_numBins], [m_binSize] and [m_detailLevel] give the same item and the
    same effects when painted at a positive scale factor: the paint stores
    the scale factor and resets the bins before it uses them. *)
Theorem first_paint_ignores_uninitialised (addr : Z) (sampleBuffer : Juce.AudioSampleBuffer)
    (orderPos : Z) (width height : Q) (numBins1 numBins2 : Z) (binSize1 binSize2 : Q)
    (detailLevel1 detailLevel2 : DetailLevel) (orderPosBeforeMove0 : Z) (m11 : Q)
    (styleOption : Qt.QStyleOptionGraphicsItem) :
  NOT_SET < 0 → (0 < m11)%Q →
  paint (WaveformItem_new addr sampleBuffer orderPos width height
                          numBins1 binSize1 detailLevel1 orderPosBeforeMove0) m11 styleOption
  = paint (WaveformItem_new addr sampleBuffer orderPos width height
                            numBins2 binSize2 detailLevel2 orderPosBeforeMove0) m11 styleOption.
Proof.
  intros Hneg Hm11.
  assert (Qeq_bool (inject_Z NOT_SET) m11 = false) as Hq.
  { destruct (Qeq_bool (inject_Z NOT_SET) m11) eqn:E; [|done].
    apply Qeq_bool_iff in E.
    assert (inject_Z NOT_SET < inject_Z 0)%Q as Hlt by (by rewrite <- Zlt_Qlt).
    change (inject_Z 0) with 0%Q in Hlt. lra. }
  assert (∀ numBins0 binSize0 detailLevel0,
            checkScaleFactor (WaveformItem_new addr sampleBuffer orderPos width height
                                numBins0 binSize0 detailLevel0 orderPosBeforeMove0) m11
            = checkScaleFactor (WaveformItem_new addr sampleBuffer orderPos width height
                                  0 0 LOW orderPosBeforeMove0) m11) as Hcheck.
  { intros n b d. unfold checkScaleFactor. cbn [WaveformItem_new setBackgroundGradient
      setBrush_item m_globalScaleFactor]. rewrite Hq. cbn [negb].
    unfold resetSampleBins. simpl.
    repeat (destruct (Qle_bool _ _)); rewrite ?resizeSampleValues_eq; done. }
  unfold paint. rewrite (Hcheck numBins1), (Hcheck numBins2). done.
Qed.


(** ** Further properties of the drag-reorder controller *)

(** The condition of a swap proposal for a drag to the right: the occupant
    is a waveform item other than the dragged one, of greater order position
    than the rightmost selected item, whose horizontal midpoint the right
    edge of the rightmost selected item has passed. *)
Definition rightSwapCondition (it rightmost : WaveformItem) (occupant : SceneItem)
    (other : WaveformItem) : Prop :=
  occupant = Waveform other
  ∧ this other ≠ this it
  ∧ getOrderPos rightmost < getOrderPos other
  ∧ (Qt.x (scenePos other) + Qt.x (Qt.center (rect other))
     < Qt.x (scenePos rightmost) + Qt.width (rect rightmost) - 1)%Q.

(** X12: during a drag to the right, with the rightmost selected item and
    the item the scene returns last at the point of its right edge
    (x + width - 1) at the height of the ruler (the occupant), the handler
    emits one in-progress reorder proposal when the occupant is a waveform
    item other than the dragged one, of strictly greater order position,
    whose horizontal midpoint the right edge of the rightmost selected item
    has passed, and none otherwise.  The proposal carries the current order
    position of every selected item and the occupant's order position minus
    that of the rightmost selected item, a positive number. *)
Theorem mouseMoveEvent_right_proposal (it : WaveformItem)
    (event : Qt.QGraphicsSceneMouseEvent) (scene : WaveGraphicsScene)
    (rightmost : WaveformItem) (occupant : SceneItem) :
  Qt.lastScreenPos_x event < Qt.screenPos_x event →
  last (getSelectedWaveforms scene) = Some rightmost →
  last (items scene
          (Qt.mkPointF (Qt.x (scenePos rightmost) + Qt.width (rect rightmost) - 1)
                       BpmRuler.HEIGHT)) = Some occupant →
  (itemType occupant = WaveformItem_Type → ∃ other, occupant = Waveform other) →
  let positions := map getOrderPos (getSelectedWaveforms scene) in
  ∃ tr,
    mouseMoveEvent it event scene = Some (BaseMouseMove event :: tr)
    ∧ (∀ other, rightSwapCondition it rightmost occupant other →
         tr = [Emit (orderPosIsChanging positions
                       (getOrderPos other - getOrderPos rightmost))]
         ∧ 0 < getOrderPos other - getOrderPos rightmost)
    ∧ ((¬ ∃ other, rightSwapCondition it rightmost occupant other) → tr = [])
    ∧ (reorderProposals tr ≠ [] ↔ ∃ other, rightSwapCondition it rightmost occupant other).
Proof.
  intros Hright Hlast Hocc Hcast positions.
  unfold mouseMoveEvent.
  rewrite (proj2 (Z.ltb_lt _ _) Hright).
  rewrite (proj2 (Z.ltb_ge (Qt.screenPos_x event) (Qt.lastScreenPos_x event))) by lia.
  unfold draggedToRight. rewrite Hlast. cbn [mbind option_bind]. rewrite Hocc.
  cbn [mbind option_bind app]. fold positions.
  destruct (Z.eqb_spec (itemAddr occupant) (this it)) as [Haddr|Haddr]; cbn [negb andb].
  { eexists. split; [reflexivity|].
    assert (¬ ∃ other, rightSwapCondition it rightmost occupant other) as Hno.
    { intros (other & -> & Hne & _). by apply Hne. }
    repeat split; try done.
    all: intros; exfalso; apply Hno; eexists; eassumption. }
  destruct (Z.eqb_spec (itemType occupant) WaveformItem_Type) as [Hty|Hty].
  2: { eexists. split; [reflexivity|].
    assert (¬ ∃ other, rightSwapCondition it rightmost occupant other) as Hno.
    { intros (other & -> & _). by apply Hty. }
    repeat split; try done.
    all: intros; exfalso; apply Hno; eexists; eassumption. }
  destruct (Hcast Hty) as [other ->]. unfold qgraphicsitem_cast.
  cbn [itemType]. rewrite Z.eqb_refl. cbn [mbind option_bind].
  cbn [itemAddr] in Haddr.
  destruct (Z.ltb_spec (getOrderPos rightmost) (getOrderPos other)) as [Hlt|Hge].
  2: { eexists. split; [reflexivity|].
    assert (¬ ∃ o, rightSwapCondition it rightmost (Waveform other) o) as Hno.
    { intros (o & [= <-] & _ & Ho & _). lia. }
    repeat split; try done.
    all: intros; exfalso; apply Hno; eexists; eassumption. }
  destruct (Qlt_bool (Qt.x (scenePos other) + Qt.x (Qt.center (rect other)))
              (Qt.x (scenePos rightmost) + Qt.width (rect rightmost) - 1)) eqn:Hmid;
    [apply Qlt_bool_iff in Hmid | apply Qlt_bool_false in Hmid].
  - eexists. split; [reflexivity|]. split; [|split; [|split]].
    + intros o (Ho & _ & Hpos & _). inversion Ho; subst. split; [done|lia].
    + intros Hno. destruct Hno. exists other. done.
    + intros _. exists other. done.
    + intros _. done.
  - eexists. split; [reflexivity|].
    assert (¬ ∃ o, rightSwapCondition it rightmost (Waveform other) o) as Hno.
    { intros (o & [= <-] & _ & _ & Ho). lra. }
    repeat split; try done.
    all: intros; exfalso; apply Hno; eexists; eassumption.
Qed.

Lemma draggedToLeft_proposals (it : WaveformItem) (scene : WaveGraphicsScene)
    (tr : list Effect) :
  draggedToLeft it scene = Some tr →
  tr = [] ∨ ∃ numPlacesMoved,
              tr = [Emit (orderPosIsChanging (map getOrderPos (getSelectedWaveforms scene))
                            numPlacesMoved)]
              ∧ numPlacesMoved < 0.
Proof.
  unfold draggedToLeft. intros H.
  apply bind_Some in H as (leftmost & _ & H).
  apply bind_Some in H as (otherItem & _ & H).
  destruct (negb _ && _); [|left; by inversion H].
  apply bind_Some in H as (other & _ & H).
  destruct (Z.ltb_spec (getOrderPos other) (getOrderPos leftmost)); [|left; by inversion H].
  destruct (Qlt_bool _ _); [|left; by inversion H].
  right. eexists. split; [by inversion H|lia].
Qed.

Lemma draggedToRight_proposals (it : WaveformItem) (scene : WaveGraphicsScene)
    (tr : list Effect) :
  draggedToRight it scene = Some tr →
  tr = [] ∨ ∃ numPlacesMoved,
              tr = [Emit (orderPosIsChanging (map getOrderPos (getSelectedWaveforms scene))
                            numPlacesMoved)]
              ∧ 0 < numPlacesMoved.
Proof.
  unfold draggedToRight. intros H.
  apply bind_Some in H as (rightmost & _ & H).
  apply bind_Some in H as (otherItem & _ & H).
  destruct (negb _ && _); [|left; by inversion H].
  apply bind_Some in H as (other & _ & H).
  destruct (Z.ltb_spec (getOrderPos rightmost) (getOrderPos other)); [|left; by inversion H].
  destruct (Qlt_bool _ _); [|left; by inversion H].
  right. eexists. split; [by inversion H|lia].
Qed.

(** X13: what a mouse move can emit.  The handler of the base class is
    called first, with the event.  After it comes at most one in-progress
    reorder proposal, and only when the pointer has moved horizontally; it
    carries the current order position of every selected item, and its
    number of places is never 0: negative for a move to the left, positive
    for a move to the right. *)
Theorem mouseMoveEvent_proposals (it : WaveformItem) (event : Qt.QGraphicsSceneMouseEvent)
    (scene : WaveGraphicsScene) (tr : list Effect) :
  mouseMoveEvent it event scene = Some tr →
  ∃ rest,
    tr = BaseMouseMove event :: rest
    ∧ (Qt.screenPos_x event = Qt.lastScreenPos_x event → rest = [])
    ∧ (rest = []
       ∨ ∃ numPlacesMoved,
           rest = [Emit (orderPosIsChanging (map getOrderPos (getSelectedWaveforms scene))
                           numPlacesMoved)]
           ∧ (Qt.screenPos_x event < Qt.lastScreenPos_x event → numPlacesMoved < 0)
           ∧ (Qt.lastScreenPos_x event < Qt.screenPos_x event → 0 < numPlacesMoved)
           ∧ Qt.screenPos_x event ≠ Qt.lastScreenPos_x event).
Proof.
  unfold mouseMoveEvent. intros H.
  apply bind_Some in H as (toLeft & HL & H).
  apply bind_Some in H as (toRight & HR & [= <-]).
  eexists. split; [reflexivity|].
  destruct (Z.ltb_spec (Qt.screenPos_x event) (Qt.lastScreenPos_x event)) as [Hl|Hl];
    destruct (Z.ltb_spec (Qt.lastScreenPos_x event) (Qt.screenPos_x event)) as [Hr|Hr];
    try lia.
  - inversion HR; subst. rewrite app_nil_r. split; [lia|].
    destruct (draggedToLeft_proposals _ _ _ HL) as [->|(n & -> & Hn)]; [by left|].
    right. exists n. split; [done|]. repeat split; lia.
  - inversion HL; subst. cbn [app]. split; [lia|].
    destruct (draggedToRight_proposals _ _ _ HR) as [->|(n & -> & Hn)]; [by left|].
    right. exists n. split; [done|]. repeat split; lia.
  - inversion HL; inversion HR; subst. split; [done|by left].
Qed.

(** X14: a horizontal mouse move needs a selected item and an item at the
    probed scene point.  With no selected waveform, or with no item at the
    scene position of the leftmost selected item (for a move to the left) or
    at the right edge of the rightmost one (for a move to the right), the
    handler takes the first or last element of an empty list and has no
    defined result; a move that is not horizontal never looks at either
    list. *)
Theorem mouseMoveEvent_empty_lists (it : WaveformItem) (event : Qt.QGraphicsSceneMouseEvent)
    (scene : WaveGraphicsScene) :
  (Qt.screenPos_x event = Qt.lastScreenPos_x event →
   mouseMoveEvent it event scene = Some [BaseMouseMove event])
  ∧ (Qt.screenPos_x event ≠ Qt.lastScreenPos_x event →
     getSelectedWaveforms scene = [] → mouseMoveEvent it event scene = None)
  ∧ (∀ leftmost, Qt.screenPos_x event < Qt.lastScreenPos_x event →
       head (getSelectedWaveforms scene) = Some leftmost →
       items scene (scenePos leftmost) = [] → mouseMoveEvent it event scene = None)
  ∧ (∀ rightmost, Qt.lastScreenPos_x event < Qt.screenPos_x event →
       last (getSelectedWaveforms scene) = Some rightmost →
       items scene
         (Qt.mkPointF (Qt.x (scenePos rightmost) + Qt.width (rect rightmost) - 1)
                      BpmRuler.HEIGHT) = [] →
       mouseMoveEvent it event scene = None).
Proof.
  unfold mouseMoveEvent, draggedToLeft, draggedToRight.
  split; [|split; [|split]].
  - intros Heq. rewrite Heq, Z.ltb_irrefl. done.
  - intros Hne ->. cbn [head last mbind option_bind].
    destruct (Z.ltb_spec (Qt.screenPos_x event) (Qt.lastScreenPos_x event)); [done|].
    rewrite (proj2 (Z.ltb_lt _ _)) by lia. done.
  - intros leftmost Hl Hhead Hitems.
    rewrite (proj2 (Z.ltb_lt _ _) Hl), Hhead. cbn [mbind option_bind].
    rewrite Hitems. done.
  - intros rightmost Hr Hlast Hitems.
    rewrite (proj2 (Z.ltb_ge (Qt.screenPos_x event) (Qt.lastScreenPos_x event))) by lia.
    rewrite (proj2 (Z.ltb_lt _ _) Hr), Hlast. cbn [mbind option_bind].
    rewrite Hitems. done.
Qed.



(** X16: the presses the item does not take.  When the item is not
    selectable, or not movable, or the right button is pressed, the event is
    ignored, the handler of the base class is not called and the item is
    left as it was (the recorded order position too); the [clicked] signal,
    with the item and the scene position of the event, is emitted exactly
    when the item is not selectable. *)
Theorem mousePressEvent_ignored (it : WaveformItem) (event : Qt.QGraphicsSceneMouseEvent) :
  Z.land (flags it) Qt.ItemIsSelectable = 0
  ∨ Z.land (flags it) Qt.ItemIsMovable = 0
  ∨ Qt.button event = Qt.RightButton →
  let result := mousePressEvent it event in
  result.1.1 = it
  ∧ Qt.accepted result.1.2 = false
  ∧ (∀ e, BaseMousePress e ∉ result.2)
  ∧ signals result.2
    = (if Z.land (flags it) Qt.ItemIsSelectable =? 0
       then [clicked (this it) (Qt.scenePos event)] else []).
Proof.
  intros Hcase result. subst result. unfold mousePressEvent.
  cbn [Qt.button Qt.setModifiers Qt.scenePos].
  destruct (Z.eqb_spec (Z.land (flags it) Qt.ItemIsSelectable) 0) as [Hs|Hs]; cbn [negb].
  { repeat split; try done. intros e He. apply elem_of_cons in He as [He|He]; [done|by apply elem_of_nil in He]. }
  destruct (Z.eqb_spec (Z.land (flags it) Qt.ItemIsMovable) 0) as [Hm|Hm]; cbn [negb].
  { repeat split; try done. intros e He. by apply elem_of_nil in He. }
  destruct (Z.eqb_spec (Qt.button event) Qt.RightButton) as [Hb|Hb].
  { repeat split; try done. intros e He. by apply elem_of_nil in He. }
  destruct Hcase as [?|[?|?]]; done.
Qed.

(** X17: the clamp of [itemChange] is idempotent when the selection fits in
    the scene.  With L and R the cumulative widths of the other selected
    items before and after the item in the order (both 0 for an item that is
    not selected) and L + width + R at most the scene width, the position
    returned for a proposed position is returned unchanged when it is
    proposed again, and it lies inside the allowed range. *)
Theorem itemChange_position_idempotent (it : WaveformItem) (value : Qt.QVariant)
    (scene : WaveGraphicsScene) :
  let selectedItems := getSelectedWaveforms scene in
  let L := if isSelected it then widthBefore it selectedItems else 0%Q in
  let R := if isSelected it then widthAfter it selectedItems else 0%Q in
  (L + Qt.width (rect it) + R <= Qt.width (sceneRect scene))%Q →
  let result := (itemChange it Qt.ItemPositionChange value (Some scene)).2 in
  itemChange it Qt.ItemPositionChange result (Some scene) = (it, result)
  ∧ (L <= Qt.x (Qt.toPointF result))%Q
  ∧ (Qt.x (Qt.toPointF result) + Qt.width (rect it) - 1 <= Qt.width (sceneRect scene) - R)%Q
  ∧ Qt.y (Qt.toPointF result) = BpmRuler.HEIGHT.
Proof.
  intros selectedItems L R Hfit result. subst result. unfold itemChange.
  fold selectedItems.
  assert (∃ minL minR,
            (if isSelected it then minDistancesFromSceneEdges it selectedItems
             else (0%Q, 0%Q)) = (minL, minR)
            ∧ (minL == L)%Q ∧ (minR == R)%Q) as (minL & minR & -> & HL & HR).
  { subst L R. destruct (isSelected it).
    - destruct (minDistancesFromSceneEdges_eq it selectedItems) as [H1 H2].
      destruct (minDistancesFromSceneEdges it selectedItems) as [a b].
      by exists a, b.
    - by exists 0%Q, 0%Q. }
  set (p := Qt.toPointF value). set (width := Qt.width (rect it)) in *.
  set (sceneWidth := Qt.width (sceneRect scene)) in *.
  cbn [snd Qt.toPointF].
  destruct (Qlt_bool (Qt.x p) minL) eqn:E1;
    [apply Qlt_bool_iff in E1 | apply Qlt_bool_false in E1].
  - cbn [Qt.setX Qt.setY Qt.x Qt.y].
    rewrite (proj2 (Qlt_bool_false minL minL)) by lra.
    rewrite (proj2 (Qlt_bool_false (sceneWidth - minR) (minL + width - 1))) by lra.
    split; [done|]. repeat split; try done; lra.
  - destruct (Qlt_bool (sceneWidth - minR) (Qt.x p + width - 1)) eqn:E2;
      [apply Qlt_bool_iff in E2 | apply Qlt_bool_false in E2].
    + cbn [Qt.setX Qt.setY Qt.x Qt.y].
      rewrite (proj2 (Qlt_bool_false (sceneWidth - minR - width) minL)) by lra.
      rewrite (proj2 (Qlt_bool_false (sceneWidth - minR)
                        (sceneWidth - minR - width + width - 1))) by lra.
      split; [done|]. repeat split; try done; lra.
    + cbn [Qt.setX Qt.setY Qt.x Qt.y].
      rewrite (proj2 (Qlt_bool_false (Qt.x p) minL)) by lra.
      rewrite (proj2 (Qlt_bool_false (sceneWidth - minR) (Qt.x p + width - 1))) by lra.
      split; [done|]. repeat split; try done; lra.
Qed.

(** X18: the changes [itemChange] does not clamp.  A change of the selected
    state sets the z value, to that of selected waveforms for a selected
    item and to that of waveforms otherwise, so that a selected item lies
    above every item that is not; nothing else of the item changes and the
    value is passed on.  A position change of an item that is in no scene,
    and every other change, leave the item and the value as they are. *)
Theorem itemChange_selection_zvalue (it : WaveformItem) (value : Qt.QVariant)
    (scene : option WaveGraphicsScene) :
  let changed := itemChange it Qt.ItemSelectedHasChanged value scene in
  changed.2 = value
  ∧ changed.1 = setZValue (zValue changed.1) it
  ∧ zValue changed.1
    = (if isSelected it then ZValues.SELECTED_WAVEFORM else ZValues.WAVEFORM)
  ∧ (∀ other value' scene',
       isSelected it = true → isSelected other = false →
       zValue (itemChange other Qt.ItemSelectedHasChanged value' scene').1
       < zValue changed.1)
  ∧ itemChange it Qt.ItemPositionChange value None = (it, value)
  ∧ (∀ code, itemChange it (Qt.ItemOtherChange code) value scene = (it, value)).
Proof.
  intros changed. subst changed. unfold itemChange.
  split; [done|]. split; [by destruct (isSelected it)|].
  split; [by destruct (isSelected it)|].
  split; [|split; [done|by intros code; destruct scene]].
  intros other value' scene' -> ->. done.
Qed.

(** X19: [isLessThanOrderPos] is a strict weak order on the items, as a
    comparison handed to a sort has to be: irreflexive, asymmetric and
    transitive, with a transitive incomparability, which is having the same
    order position. *)
Theorem isLessThanOrderPos_strict_weak_order (item1 item2 item3 : WaveformItem) :
  isLessThanOrderPos item1 item1 = false
  ∧ (isLessThanOrderPos item1 item2 = true → isLessThanOrderPos item2 item1 = false)
  ∧ (isLessThanOrderPos item1 item2 = true → isLessThanOrderPos item2 item3 = true →
     isLessThanOrderPos item1 item3 = true)
  ∧ (isLessThanOrderPos item1 item2 = false ∧ isLessThanOrderPos item2 item1 = false
     ↔ getOrderPos item1 = getOrderPos item2)
  ∧ (isLessThanOrderPos item1 item2 = false → isLessThanOrderPos item2 item1 = false →
     isLessThanOrderPos item2 item3 = false → isLessThanOrderPos item3 item2 = false →
     isLessThanOrderPos item1 item3 = false ∧ isLessThanOrderPos item3 item1 = false).
Proof.
  unfold isLessThanOrderPos. rewrite !Z.ltb_lt, !Z.ltb_ge. lia.
Qed.


(** ** Repainting *)

(** The painter calls of a list of effects, in order. *)
Definition painterCalls (tr : list Effect) : list PainterCall :=
  omap (λ e, match e with Painter c => Some c | _ => None end) tr.

Lemma painterCalls_app (tr1 tr2 : list Effect) :
  painterCalls (tr1 ++ tr2) = painterCalls tr1 ++ painterCalls tr2.
Proof. apply omap_app. Qed.

Lemma filledValues_nil (it : WaveformItem) (proj : Juce.Range → Q) (chans : list nat)
    (arrays : list Juce.Array) :
  filledValues it proj [] chans arrays = arrays.
Proof. unfold filledValues. induction chans as [|c cs IH]; [done|]. exact IH. Qed.

Lemma queriesOf_nil (it : WaveformItem) (startBin endBin : Z) :
  endBin < startBin → queriesOf it startBin endBin = [].
Proof.
  intros Hlt. unfold queriesOf.
  replace (seqZ startBin (endBin - startBin + 1)) with (@nil Z)
    by (unfold seqZ; replace (Z.to_nat (endBin - startBin + 1)) with 0%nat by lia; done).
  induction (seq 0 _) as [|c cs IH]; [done|]. exact IH.
Qed.

(** A fill for the visible range just filled leaves the item as it is. *)
Lemma fillVisibleBins_fixpoint (it : WaveformItem) (l r : Q) :
  NOT_SET < 0 → binCacheOk it → (0 < m_globalScaleFactor it)%Q →
  (0 <= l)%Q → (l <= r)%Q → (r <= Qt.width (rect it))%Q →
  fillVisibleBins (fillVisibleBins it l r).1 l r = ((fillVisibleBins it l r).1, []).
Proof.
  intros Hneg Hok Hs Hl Hlr Hr.
  destruct (fillVisibleBins_ok it l r Hneg Hok Hs Hl Hlr Hr) as (Hok2 & Hf2 & Hl2 & _).
  pose proof Hok as (Hn & _ & _ & _ & _ & Hrange).
  destruct (visibleBins_bounds it l r Hn Hs Hl Hlr Hr) as (Hfv & Hlv & Hfl).
  pose proof (firstVisibleBin_fill it l r l) as Hfv2.
  pose proof (lastVisibleBin_fill it l r r) as Hlv2.
  assert (m_firstCalculatedBin (fillVisibleBins it l r).1
          = if calculatedBinsNotSet it then firstVisibleBin it l
            else Z.min (m_firstCalculatedBin it) (firstVisibleBin it l)) as HF
    by (by rewrite fillVisibleBins_eq).
  assert (m_lastCalculatedBin (fillVisibleBins it l r).1
          = if calculatedBinsNotSet it then lastVisibleBin it r
            else Z.max (m_lastCalculatedBin it) (lastVisibleBin it r)) as HL
    by (by rewrite fillVisibleBins_eq).
  set (it2 := (fillVisibleBins it l r).1) in *. clearbody it2.
  rewrite (fillVisibleBins_eq it2 l r). cbv zeta. unfold fillRanges.
  rewrite Hfv2, Hlv2.
  set (fv := firstVisibleBin it l) in *. set (lv := lastVisibleBin it r) in *.
  destruct (calculatedBinsNotSet it2) eqn:Hns2.
  - apply calculatedBinsNotSet_true in Hns2.
    assert (m_firstCalculatedBin it2 = fv ∧ m_lastCalculatedBin it2 = lv ∧ lv < fv)
      as (HF' & HL' & Hempty).
    { destruct (calculatedBinsNotSet it) eqn:Hns.
      - lia.
      - specialize (Hrange eq_refl). apply calculatedBinsNotSet_false in Hns. lia. }
    unfold filledRanges. cbn [foldl flat_map].
    replace (seqZ fv (lv - fv + 1)) with (@nil Z)
      by (unfold seqZ; replace (Z.to_nat (lv - fv + 1)) with 0%nat by lia; done).
    rewrite !filledValues_nil, queriesOf_nil, <- HF', <- HL' by done.
    by destruct it2.
  - rewrite (proj2 (Z.ltb_ge fv (m_firstCalculatedBin it2))) by lia.
    rewrite (proj2 (Z.ltb_ge (m_lastCalculatedBin it2) lv)) by lia.
    cbn [app filledRanges foldl flat_map].
    rewrite Z.min_l, Z.max_l by lia. by destruct it2.
Qed.

Lemma checkScaleFactor_again (it : WaveformItem) (m11 : Q) :
  checkScaleFactor (checkScaleFactor it m11).1 m11 = ((checkScaleFactor it m11).1, []).
Proof.
  assert (Qeq_bool (m_globalScaleFactor (checkScaleFactor it m11).1) m11 = true) as Hq.
  { unfold checkScaleFactor at 1.
    destruct (Qeq_bool (m_globalScaleFactor it) m11) eqn:E; [done|]. cbn [negb].
    destruct (resetSampleBins_fields (set_globalScaleFactor m11 it))
      as (_ & _ & _ & _ & _ & Hg & _).
    cbv zeta in Hg. rewrite Hg. apply Qeq_bool_iff. reflexivity. }
  unfold checkScaleFactor at 1. by rewrite Hq.
Qed.

Lemma paintPrologue_ext (it1 it2 : WaveformItem) (numChans : nat) :
  brush it1 = brush it2 → rect it1 = rect it2 →
  paintPrologue it1 numChans = paintPrologue it2 numChans.
Proof. intros Hb Hr. unfold paintPrologue. by rewrite Hb, Hr. Qed.

Lemma painterCalls_none (tr : list Effect) :
  Forall (λ e, match e with Painter _ => False | _ => True end) tr → painterCalls tr = [].
Proof. intros H. apply omap_none. eapply Forall_impl; [exact H|]. by intros []. Qed.

(** X20: repainting at a bin-based detail level.  After a paint of an
    exposed rectangle inside the item, a second paint at the same scale
    factor of the same rectangle leaves the item as the first left it,
    emits no signal, asks the buffer nothing, and makes the painter calls
    and the reads of the cache of the first paint again. *)
Theorem repaint_bins_idempotent (it : WaveformItem) (m11 : Q)
    (styleOption : Qt.QStyleOptionGraphicsItem) :
  NOT_SET < 0 → (0 < m11)%Q →
  let l := Qt.left (Qt.exposedRect styleOption) in
  let r := Qt.right (Qt.exposedRect styleOption) in
  let numChans := Juce.getNumChannels (m_sampleBuffer it) in
  (0 <= l)%Q → (l <= r)%Q → (r <= Qt.width (rect it))%Q →
  length (m_minSampleValues it) = numChans →
  length (m_maxSampleValues it) = numChans →
  (Qeq_bool (m_globalScaleFactor it) m11 = true → binCacheOk it) →
  m_detailLevel (checkScaleFactor it m11).1 ≠ VERY_HIGH →
  ∃ it' tr tr',
    paint it m11 styleOption = Some (it', tr)
    ∧ paint it' m11 styleOption = Some (it', tr')
    ∧ painterCalls tr' = painterCalls tr
    ∧ readBins tr' = readBins tr
    ∧ queriedBins tr' = []
    ∧ signals tr' = [].
Proof.
  intros Hneg Hm11 l r numChans Hl Hlr Hr Hlm Hlx Hinv Hd.
  destruct (paint_bins_defined it m11 styleOption Hneg Hm11 Hl Hlr Hr Hlm Hlx Hinv Hd)
    as (d & Hdraw & Hpaint & Hok1 & Hok2 & Hs & Hr1).
  fold l r in Hdraw, Hpaint, Hok2, Hr1.
  destruct (checkScaleFactor_geometry it m11) as [_ Hbuf].
  pose proof (checkScaleFactor_again it m11) as Hagain.
  set (it1 := (checkScaleFactor it m11).1) in *.
  pose proof (fillVisibleBins_fixpoint it1 l r Hneg Hok1 Hs Hl Hlr Hr1) as Hfix.
  destruct (fillVisibleBins_preserves it1 l r) as (Hg2 & _ & _ & Hd2 & Hb2 & Hr2).
  assert (brush (fillVisibleBins it1 l r).1 = brush it1) as Hbr
    by (by rewrite fillVisibleBins_eq).
  set (it2 := (fillVisibleBins it1 l r).1) in *.
  assert (checkScaleFactor it2 m11 = (it2, [])) as Hcheck2.
  { unfold checkScaleFactor. rewrite Hg2.
    assert (Qeq_bool (m_globalScaleFactor it1) m11 = true) as ->; [|done].
    revert Hagain. unfold checkScaleFactor at 1.
    destruct (Qeq_bool (m_globalScaleFactor it1) m11); [done|]. cbn [negb].
    intros H. exfalso.
    pose proof (resetSampleBins_signals (set_globalScaleFactor m11 it1)) as Hsig.
    rewrite H in Hsig. cbn [snd] in Hsig. unfold detailLevelSignals in Hsig.
    by destruct (m_detailLevel _). }
  assert (paint it2 m11 styleOption
          = Some (it2, paintPrologue it2 (Juce.getNumChannels (m_sampleBuffer it2))
                       ++ d ++ paintEpilogue it2 (Qt.state_Selected styleOption))) as Hpaint2.
  { pose proof (paint_bins_trace it2 m11 styleOption d) as Ht. cbv zeta in Ht.
    rewrite Hcheck2 in Ht. cbn [fst snd] in Ht. fold l r in Ht.
    rewrite Hfix in Ht. cbn [fst snd app] in Ht. apply Ht; [by rewrite Hd2|done]. }
  eexists it2, _, _. split; [exact Hpaint|]. split; [exact Hpaint2|].
  rewrite Hb2, Hbuf, (paintPrologue_ext it2 it1) by done.
  assert (painterCalls (checkScaleFactor it m11).2 = []) as Hp0
    by (by apply omap_checkScaleFactor).
  assert (painterCalls (fillVisibleBins it1 l r).2 = []) as Hp1 by (by apply omap_fill).
  split; [by rewrite !painterCalls_app, Hp0, Hp1|].
  assert (readBins (checkScaleFactor it m11).2 = []) as Hr0
    by (by apply omap_checkScaleFactor).
  assert (readBins (fillVisibleBins it1 l r).2 = []) as Hr1' by (by apply omap_fill).
  split; [by rewrite !readBins_app, Hr0, Hr1'|].
  split.
  - unfold queriedBins. rewrite !omap_app.
    rewrite omap_paintPrologue, omap_paintEpilogue by done.
    by rewrite (omap_drawSampleBins _ it2 l r d).
  - unfold signals. rewrite !omap_app.
    rewrite omap_paintPrologue, omap_paintEpilogue by done.
    by rewrite (omap_drawSampleBins _ it2 l r d).
Qed.

(** X21: repainting at VERY_HIGH detail.  After a paint that drew from the
    samples, a second paint at the same scale factor of the same exposed
    rectangle leaves the item as it is, emits no signal and makes the
    painter calls of the first paint again. *)
Theorem repaint_samples_idempotent (it : WaveformItem) (m11 : Q)
    (styleOption : Qt.QStyleOptionGraphicsItem) (it' : WaveformItem) (tr : list Effect) :
  paint it m11 styleOption = Some (it', tr) →
  m_detailLevel it' = VERY_HIGH →
  ∃ tr',
    paint it' m11 styleOption = Some (it', tr')
    ∧ painterCalls tr' = painterCalls tr
    ∧ signals tr' = []
    ∧ tr = (checkScaleFactor it m11).2 ++ tr'.
Proof.
  intros Hpaint Hd.
  destruct (paint_after_check _ _ _ _ _ Hpaint) as (Hd1 & _).
  destruct (paint_inv _ _ _ _ _ Hpaint) as (wave & -> & Hwave).
  rewrite Hd in Hd1. rewrite <- Hd1 in Hwave. destruct Hwave as (-> & Hdraw).
  destruct (checkScaleFactor_geometry it m11) as [_ Hbuf].
  pose proof (checkScaleFactor_again it m11) as Hagain.
  set (it1 := (checkScaleFactor it m11).1) in *.
  set (l := Qt.left (Qt.exposedRect styleOption)) in *.
  set (r := Qt.right (Qt.exposedRect styleOption)) in *.
  assert (paint it1 m11 styleOption
          = Some (it1, paintPrologue it1 (Juce.getNumChannels (m_sampleBuffer it))
                       ++ wave ++ paintEpilogue it1 (Qt.state_Selected styleOption))) as Hp2.
  { unfold paint. rewrite Hagain. fold l r. rewrite <- Hd1, Hdraw, Hbuf.
    cbn [mbind option_bind app]. unfold paintPrologue, paintEpilogue.
    by rewrite <- !app_assoc. }
  eexists. split; [exact Hp2|].
  assert (painterCalls (checkScaleFactor it m11).2 = []) as Hp0
    by (by apply omap_checkScaleFactor).
  split; [by rewrite !painterCalls_app, Hp0|]. split; [|done].
  unfold signals. rewrite !omap_app.
  rewrite omap_paintPrologue, omap_paintEpilogue by done.
  rewrite (omap_none _ wave); [done|].
  eapply Forall_impl; [exact (drawWaveformFromSamples_drawing _ _ _ _ Hdraw)|].
  intros [s|[]| | | | |]; done.
Qed.


(** ** From the constructor to the first paint *)


End WaveformItem.

(** ** Concrete items

    Sample values for the constants of waveformitem.h, a buffer of four
    frames on one channel, and a buffer of 42 frames. *)

Definition sample_NOT_SET : Z := -1.
Definition sample_MAX_CUTOFF : Q := 1 # 20.
Definition sample_VERY_HIGH_CUTOFF : Q := 1.
Definition sample_HIGH_CUTOFF : Q := 10.

Definition fourFrames : Juce.AudioSampleBuffer :=
  Juce.mkBuffer [[1 # 10; -3 # 10; 1 # 2; -1 # 5]%Q] 4.

Definition fortyTwoFrames : Juce.AudioSampleBuffer :=
  Juce.mkBuffer [map (λ i, i # 50)%Q (seqZ (-21) 42)] 42.

(** A new item over [buffer], with zeroes for the members the constructor
    leaves uninitialised. *)
Definition newItem (addr : Z) (buffer : Juce.AudioSampleBuffer) (orderPos : Z)
    (width : Q) : WaveformItem :=
  WaveformItem_new sample_NOT_SET addr buffer orderPos width 100 0 0 LOW 0.

Abbreviation samplePaint it m11 exposedLeft exposedWidth :=
  (paint sample_NOT_SET sample_MAX_CUTOFF sample_VERY_HIGH_CUTOFF sample_HIGH_CUTOFF
         it m11 (Qt.mkStyleOption (Qt.mkRectF exposedLeft 0 exposedWidth 100) false))
  (only parsing).

(** An item of width 10.5 over 42 frames, after a first paint at scale 1 of
    its left half: ten bins of four frames, HIGH detail, bins 0 to 6 cached. *)
Definition binItem : WaveformItem :=
  Eval vm_compute in
    match samplePaint (newItem 1 fortyTwoFrames 0 (21 # 2)) 1 0 (21 # 4) with
    | Some (it, _) => it
    | None => newItem 1 fortyTwoFrames 0 (21 # 2)
    end.

(** A selected item at a scene position, for the scenes of the drag examples. *)
Definition placedItem (addr orderPos : Z) (x width : Q) (selected : bool) : WaveformItem :=
  let it := newItem addr fourFrames orderPos width in
  mkWaveformItem (this it) (rect it) (Qt.mkPointF x BpmRuler.HEIGHT) (flags it) selected
    (if selected then ZValues.SELECTED_WAVEFORM else ZValues.WAVEFORM)
    (brush it) (m_sampleBuffer it) (m_currentOrderPos it) (m_orderPosBeforeMove it)
    (m_globalScaleFactor it) (m_stretchRatio it) (m_numBins it) (m_binSize it)
    (m_firstCalculatedBin it) (m_lastCalculatedBin it) (m_detailLevel it)
    (m_minSampleValues it) (m_maxSampleValues it).

Example binItem_state :
  m_detailLevel binItem = HIGH ∧ m_numBins binItem = 10 ∧ (m_binSize binItem == 4)%Q
  ∧ m_firstCalculatedBin binItem = 0 ∧ m_lastCalculatedBin binItem = 6
  ∧ map length (m_minSampleValues binItem) = [10%nat].
Proof. vm_compute. repeat split. Qed.

(** ** The theorems at concrete inputs *)

Abbreviation resetSample it :=
  (resetSampleBins sample_NOT_SET sample_MAX_CUTOFF sample_VERY_HIGH_CUTOFF
                   sample_HIGH_CUTOFF it).1 (only parsing).




(** C8 at two widths over the same 42 frames: a bin size of 4 gives HIGH, a
    bin size of 1/2 gives VERY_HIGH, which is not coarser. *)
Lemma resetSampleBins_detailLevel_sample :
  (m_binSize (resetSample (set_globalScaleFactor 8 (newItem 1 fortyTwoFrames 0 (21 # 2))))
   <= m_binSize (resetSample (set_globalScaleFactor 1 (newItem 1 fortyTwoFrames 0 (21 # 2)))))%Q
  ∧ m_detailLevel (resetSample (set_globalScaleFactor 8 (newItem 1 fortyTwoFrames 0 (21 # 2))))
    = VERY_HIGH
  ∧ m_detailLevel (resetSample (set_globalScaleFactor 1 (newItem 1 fortyTwoFrames 0 (21 # 2))))
    = HIGH
  ∧ coarseness (m_detailLevel
                  (resetSample (set_globalScaleFactor 8 (newItem 1 fortyTwoFrames 0 (21 # 2)))))
    <= coarseness (m_detailLevel
                  (resetSample (set_globalScaleFactor 1 (newItem 1 fortyTwoFrames 0 (21 # 2))))).
Proof.
  destruct (resetSampleBins_detailLevel sample_NOT_SET sample_MAX_CUTOFF
              sample_VERY_HIGH_CUTOFF sample_HIGH_CUTOFF
              (set_globalScaleFactor 8 (newItem 1 fortyTwoFrames 0 (21 # 2)))
              (set_globalScaleFactor 1 (newItem 1 fortyTwoFrames 0 (21 # 2))))
    as (_ & _ & _ & _ & _ & Hmono).
  assert (m_binSize (resetSample (set_globalScaleFactor 8 (newItem 1 fortyTwoFrames 0 (21 # 2))))
          <= m_binSize (resetSample (set_globalScaleFactor 1 (newItem 1 fortyTwoFrames 0 (21 # 2)))))%Q
    as Hle by (vm_compute; discriminate).
  split; [exact Hle|]. split; [reflexivity|]. split; [reflexivity|].
  exact (Hmono Hle).
Defined.


Abbreviation sampleFill it exposedLeft exposedWidth :=
  (fillVisibleBins sample_NOT_SET it exposedLeft (Qt.right (Qt.mkRectF exposedLeft 0 exposedWidth 100)))
  (only parsing).




(** An item of width 8 over the four frames. *)
Definition fourFrameItem : WaveformItem := newItem 1 fourFrames 0 8.


(** Three selected items of widths 20, 30 and 50 in a scene 200 wide. *)
Definition selectedThree : list WaveformItem :=
  [placedItem 1 0 0 20 true; placedItem 2 1 20 30 true; placedItem 3 2 50 50 true].

Definition sceneOfThree : WaveGraphicsScene :=
  mkScene (Qt.mkRectF 0 0 200 118) selectedThree (λ _, map Waveform selectedThree).

(** C4, counterexample: the first of the three selected items (the two others
    have greater order positions and a cumulative width of 80) proposed at
    x = 0 stays at x = 0, below 80. *)
Lemma itemChange_not_right_of_later_items :
  widthAfter (placedItem 1 0 0 20 true) selectedThree = 80%Q
  ∧ itemChange (placedItem 1 0 0 20 true) Qt.ItemPositionChange
               (Qt.VPointF (Qt.mkPointF 0 BpmRuler.HEIGHT)) (Some sceneOfThree)
    = (placedItem 1 0 0 20 true, Qt.VPointF (Qt.mkPointF 0 BpmRuler.HEIGHT))
  ∧ (0 < 80)%Q.
Proof. vm_compute. repeat split. Qed.

(** C4 (amended) on the last of the three selected items, proposed at
    (10, 40): the two others, of combined width 50, come before it, and the
    position becomes (50, 18). *)
Lemma itemChange_position_clamped_sample :
  isSelected (placedItem 3 2 50 50 true) = true
  ∧ (widthBefore (placedItem 3 2 50 50 true) selectedThree == 50)%Q
  ∧ ∃ newPos,
      itemChange (placedItem 3 2 50 50 true) Qt.ItemPositionChange
                 (Qt.VPointF (Qt.mkPointF 10 40)) (Some sceneOfThree)
      = (placedItem 3 2 50 50 true, Qt.VPointF newPos)
      ∧ (Qt.x newPos == 50)%Q
      ∧ Qt.y newPos = BpmRuler.HEIGHT.
Proof.
  split; [reflexivity|]. split; [reflexivity|].
  destruct (itemChange_position_clamped (placedItem 3 2 50 50 true)
              (Qt.VPointF (Qt.mkPointF 10 40)) sceneOfThree eq_refl)
    as (newPos & Heq & Hy & Hleft & _).
  exists newPos. split; [exact Heq|]. split; [|exact Hy].
  rewrite Hleft; [reflexivity|]. vm_compute. reflexivity.
Defined.

Definition releaseEvent : Qt.QGraphicsSceneMouseEvent :=
  Qt.mkMouseEvent 0 Qt.LeftButton (Qt.mkPointF 60 30) 60 61 true.

(** C5 after a net move of two places: the dragged item, pressed at order
    position 1, is at 3 and the other selected item at 4; the finalized
    notification carries [1; 2] and 2, and 1 + 2 = 3, 2 + 2 = 4. *)
Lemma mouseReleaseEvent_two_places :
  let it := set_orderPosBeforeMove 1 (placedItem 1 3 60 20 true) in
  let scene := mkScene (Qt.mkRectF 0 0 200 118) [it; placedItem 2 4 80 30 true] (λ _, []) in
  finalizedReorders (mouseReleaseEvent it releaseEvent scene) = [([1; 2], 2)]
  ∧ finishedMoves (mouseReleaseEvent it releaseEvent scene) = [3; 4]
  ∧ map (λ old, old + 2) [1; 2] = [3; 4].
Proof.
  intros it scene.
  destruct (mouseReleaseEvent_notifications it releaseEvent scene)
    as (_ & Hchanged & _ & _ & Hfinished & _).
  split; [apply Hchanged; discriminate|]. split; [exact Hfinished|reflexivity].
Defined.

(** Two adjacent items of width 100, at order positions 2 and 3; the second
    is selected and has been dragged left, from x = 300 to x = 240, past the
    midpoint x = 250 of the first. *)
Definition occupantItem : WaveformItem := placedItem 1 2 200 100 false.
Definition draggedItem : WaveformItem := placedItem 2 3 240 100 true.

Definition dragScene : WaveGraphicsScene :=
  mkScene (Qt.mkRectF 0 0 1000 118) [draggedItem]
          (λ p, if Qle_bool 200 (Qt.x p) && Qlt_bool (Qt.x p) 300
                then [Waveform draggedItem; Waveform occupantItem]
                else [Waveform draggedItem]).

Definition dragLeftEvent : Qt.QGraphicsSceneMouseEvent :=
  Qt.mkMouseEvent 0 Qt.LeftButton (Qt.mkPointF 260 30) 260 270 true.

(** C6 on these two items: the proposal carries the order position 3 of the
    selected item and numPlacesMoved = -1. *)
Lemma mouseMoveEvent_left_proposal_adjacent :
  Qt.screenPos_x dragLeftEvent < Qt.lastScreenPos_x dragLeftEvent
  ∧ leftSwapCondition draggedItem draggedItem (Waveform occupantItem) occupantItem
  ∧ mouseMoveEvent UserTypes.WAVEFORM draggedItem dragLeftEvent dragScene
    = Some [BaseMouseMove dragLeftEvent; Emit (orderPosIsChanging [3] (-1))].
Proof.
  assert (leftSwapCondition draggedItem draggedItem (Waveform occupantItem) occupantItem)
    as Hcond.
  { split; [reflexivity|]. split; [discriminate|]. split; reflexivity. }
  destruct (mouseMoveEvent_left_proposal UserTypes.WAVEFORM draggedItem dragLeftEvent
              dragScene draggedItem (Waveform occupantItem))
    as (tr & Hmove & _ & Hone & _).
  - reflexivity.
  - reflexivity.
  - reflexivity.
  - intros _. exists occupantItem. reflexivity.
  - split; [reflexivity|]. split; [exact Hcond|].
    rewrite Hmove. rewrite (Hone occupantItem Hcond eq_refl). reflexivity.
Defined.


(** ** The further properties at concrete inputs *)

(** Eight frames on one channel, and an item of width 2 over them after a
    reset at scale factor 1: two bins of four frames, HIGH detail. *)
Definition eightFrames : Juce.AudioSampleBuffer :=
  Juce.mkBuffer [[1 # 10; -3 # 10; 1 # 2; -1 # 5; 3 # 10; 2 # 5; -1 # 2; 1 # 10]%Q] 8.

Definition eightFrameItem : WaveformItem :=
  Eval vm_compute in resetSample (set_globalScaleFactor 1 (newItem 1 eightFrames 0 2)).

Example eightFrameItem_state :
  m_detailLevel eightFrameItem = HIGH ∧ m_numBins eightFrameItem = 2
  ∧ (m_binSize eightFrameItem == 4)%Q
  ∧ m_minSampleValues eightFrameItem = [[0; 0]%Q].
Proof. vm_compute. repeat split. Qed.


(** The item [binItem] satisfies the invariants of the cache: its bins 0 to
    6 hold the minimum and maximum of their four frames. *)
Lemma binItem_ok : binCacheOk sample_NOT_SET binItem ∧ cacheValid sample_NOT_SET binItem.
Proof.
  split.
  - split; [reflexivity|]. split; [reflexivity|]. split; [reflexivity|].
    split; [repeat constructor|]. split; [repeat constructor|].
    intros _. vm_compute. repeat split; discriminate.
  - intros _ c b Hc Hb.
    assert (c = 0%nat) as -> by (vm_compute in Hc; lia).
    change (0 <= b <= 6) in Hb.
    assert (b = 0 ∨ b = 1 ∨ b = 2 ∨ b = 3 ∨ b = 4 ∨ b = 5 ∨ b = 6) as Hcases by lia.
    destruct Hcases as [->|[->|[->|[->|[->|[->| ->]]]]]]; split; reflexivity.
Qed.


(** X3 at the same paint: the runs of the bins 7 to 9, frames 28 to 39, lie
    in the 42 frames. *)
Lemma paint_queries_inside_buffer_sample :
  ∃ it' tr,
    samplePaint binItem 1 0 (21 # 2) = Some (it', tr)
    ∧ (m_binSize it'
       == inject_Z 42 / (Qt.width (rect it') * m_globalScaleFactor it'))%Q
    ∧ Forall (λ '(chanNum, startFrame, count),
                (chanNum < 1)%nat ∧ 0 <= startFrame ∧ 0 <= count
                ∧ startFrame + count <= 42)
             (queriedFrames tr).
Proof.
  apply (paint_queries_inside_buffer sample_NOT_SET sample_MAX_CUTOFF
           sample_VERY_HIGH_CUTOFF sample_HIGH_CUTOFF binItem 1
           (Qt.mkStyleOption (Qt.mkRectF 0 0 (21 # 2) 100) false)).
  - reflexivity.
  - reflexivity.
  - vm_compute; discriminate.
  - vm_compute; discriminate.
  - vm_compute; discriminate.
  - reflexivity.
  - reflexivity.
  - vm_compute; discriminate.
  - intros _. split; [exact (proj1 binItem_ok)|reflexivity].
  - vm_compute; discriminate.
Defined.

(** X4 on the eight frames: the run of bin 0, frames 0 to 3, ends where the
    run of bin 1 starts. *)
Lemma findMinMaxSamples_runs_disjoint_eight_frames :
  (0 <= m_binSize eightFrameItem)%Q
  ∧ (findMinMaxSamples 0 1 eightFrameItem).2 = [QueryMinMax 0 0 0 4; QueryMinMax 0 1 4 4]
  ∧ 0 + 4 <= 4.
Proof.
  assert (0 <= m_binSize eightFrameItem)%Q as Hbs by (vm_compute; discriminate).
  assert ((findMinMaxSamples 0 1 eightFrameItem).2
          = [QueryMinMax 0 0 0 4; QueryMinMax 0 1 4 4]) as Htr by reflexivity.
  split; [exact Hbs|]. split; [exact Htr|].
  refine (proj2 (proj2 (findMinMaxSamples_runs_disjoint 0 1 eightFrameItem
                          0%nat 0%nat 0 1 0 4 4 4 Hbs _ _ _ _))).
  - lia.
  - rewrite Htr. apply list_elem_of_here.
  - rewrite Htr. apply list_elem_of_further, list_elem_of_here.
  - lia.
Defined.

(** X5 at the first paint of the item of width 10.5 over 42 frames, at scale
    1: the one signal is [sampleBinDetailLevelReached]. *)
Lemma paint_signals_sample :
  ∃ it' tr,
    samplePaint (newItem 1 fortyTwoFrames 0 (21 # 2)) 1 0 (21 # 4) = Some (it', tr)
    ∧ signals tr = [sampleBinDetailLevelReached]
    ∧ ∃ rest, tr = Emit sampleBinDetailLevelReached :: rest ∧ signals rest = [].
Proof.
  destruct (paint sample_NOT_SET sample_MAX_CUTOFF sample_VERY_HIGH_CUTOFF
              sample_HIGH_CUTOFF (newItem 1 fortyTwoFrames 0 (21 # 2)) 1
              (Qt.mkStyleOption (Qt.mkRectF 0 0 (21 # 4) 100) false))
    as [[it' tr]|] eqn:E; [|vm_compute in E; discriminate].
  exists it', tr. split; [reflexivity|].
  destruct (paint_signals _ _ _ _ _ _ _ _ _ E) as (Hs & rest & Hrest & Hnone).
  assert (signals tr = [sampleBinDetailLevelReached]) as Hs'.
  { rewrite Hs. revert E. vm_compute. intros [= <- <-]. reflexivity. }
  split; [exact Hs'|]. exists rest. split; [|exact Hnone].
  rewrite Hs' in Hrest. exact Hrest.
Defined.

(** X6 at the same paint, of a selected item: the painter is left at the
    depth it came with. *)
Lemma paint_restores_painter_sample :
  ∃ it' tr,
    paint sample_NOT_SET sample_MAX_CUTOFF sample_VERY_HIGH_CUTOFF sample_HIGH_CUTOFF
          (newItem 1 fortyTwoFrames 0 (21 # 2)) 1
          (Qt.mkStyleOption (Qt.mkRectF 0 0 (21 # 4) 100) true) = Some (it', tr)
    ∧ saveDepth tr 0 = Some 0%nat
    ∧ last tr = Some (Painter (drawRect (rect it'))).
Proof.
  destruct (paint sample_NOT_SET sample_MAX_CUTOFF sample_VERY_HIGH_CUTOFF
              sample_HIGH_CUTOFF (newItem 1 fortyTwoFrames 0 (21 # 2)) 1
              (Qt.mkStyleOption (Qt.mkRectF 0 0 (21 # 4) 100) true))
    as [[it' tr]|] eqn:E; [|vm_compute in E; discriminate].
  exists it', tr. split; [reflexivity|].
  destruct (paint_restores_painter _ _ _ _ _ _ _ _ _ 0%nat E)
    as (Hdepth & body & Hbody & _ & _).
  split; [exact Hdepth|]. rewrite Hbody. cbn [Qt.state_Selected].
  rewrite last_app. reflexivity.
Defined.


(** X8 on the four frames at VERY_HIGH detail: an exposed rectangle from
    x = -1 makes the first visible frame -1, and the paint has no defined
    result. *)
Lemma drawWaveformFromSamples_left_of_item_four_frames :
  firstVisibleFrame
    (checkScaleFactor sample_NOT_SET sample_MAX_CUTOFF sample_VERY_HIGH_CUTOFF
       sample_HIGH_CUTOFF fourFrameItem 1).1 (-1) = -1
  ∧ samplePaint fourFrameItem 1 (-1) 9 = None.
Proof.
  destruct (drawWaveformFromSamples_left_of_item sample_NOT_SET sample_MAX_CUTOFF
              sample_VERY_HIGH_CUTOFF sample_HIGH_CUTOFF fourFrameItem 1
              (Qt.mkStyleOption (Qt.mkRectF (-1) 0 9 100) false))
    as (_ & _ & Hpaint).
  - reflexivity.
  - reflexivity.
  - vm_compute; lia.
  - reflexivity.
  - vm_compute; discriminate.
  - reflexivity.
  - split; [reflexivity|exact Hpaint].
Defined.

(** X11 on the four frames: whatever [m_numBins], [m_binSize] and
    [m_detailLevel] hold after the constructor, the first paint is the
    same. *)
Lemma first_paint_ignores_uninitialised_four_frames :
  paint sample_NOT_SET sample_MAX_CUTOFF sample_VERY_HIGH_CUTOFF sample_HIGH_CUTOFF
        (WaveformItem_new sample_NOT_SET 1 fourFrames 0 8 100 0 0 LOW 0) 1
        (Qt.mkStyleOption (Qt.mkRectF 0 0 8 100) false)
  = paint sample_NOT_SET sample_MAX_CUTOFF sample_VERY_HIGH_CUTOFF sample_HIGH_CUTOFF
          (WaveformItem_new sample_NOT_SET 1 fourFrames 0 8 100 7 (33 # 2) HIGH 0) 1
          (Qt.mkStyleOption (Qt.mkRectF 0 0 8 100) false).
Proof.
  apply (first_paint_ignores_uninitialised sample_NOT_SET sample_MAX_CUTOFF
           sample_VERY_HIGH_CUTOFF sample_HIGH_CUTOFF); reflexivity.
Defined.

(** Two adjacent items of width 100, at order positions 3 and 4; the first
    is selected and has been dragged right, from x = 200 to x = 260, so that
    its right edge, at x = 359, is past the midpoint x = 350 of the second. *)
Definition draggedRightItem : WaveformItem := placedItem 2 3 260 100 true.
Definition rightOccupantItem : WaveformItem := placedItem 3 4 300 100 false.

Definition dragRightScene : WaveGraphicsScene :=
  mkScene (Qt.mkRectF 0 0 1000 118) [draggedRightItem]
          (λ p, if Qle_bool 300 (Qt.x p) && Qlt_bool (Qt.x p) 360
                then [Waveform draggedRightItem; Waveform rightOccupantItem]
                else [Waveform draggedRightItem]).

Definition dragRightEvent : Qt.QGraphicsSceneMouseEvent :=
  Qt.mkMouseEvent 0 Qt.LeftButton (Qt.mkPointF 280 30) 280 270 true.

(** X12 on these two items: the proposal carries the order position 3 of
    the selected item and numPlacesMoved = 1. *)
Lemma mouseMoveEvent_right_proposal_adjacent :
  Qt.lastScreenPos_x dragRightEvent < Qt.screenPos_x dragRightEvent
  ∧ rightSwapCondition draggedRightItem draggedRightItem (Waveform rightOccupantItem)
                       rightOccupantItem
  ∧ mouseMoveEvent UserTypes.WAVEFORM draggedRightItem dragRightEvent dragRightScene
    = Some [BaseMouseMove dragRightEvent; Emit (orderPosIsChanging [3] 1)].
Proof.
  assert (rightSwapCondition draggedRightItem draggedRightItem (Waveform rightOccupantItem)
                             rightOccupantItem) as Hcond.
  { split; [reflexivity|]. split; [discriminate|]. split; reflexivity. }
  destruct (mouseMoveEvent_right_proposal UserTypes.WAVEFORM draggedRightItem dragRightEvent
              dragRightScene draggedRightItem (Waveform rightOccupantItem))
    as (tr & Hmove & Hone & _).
  - reflexivity.
  - reflexivity.
  - reflexivity.
  - intros _. exists rightOccupantItem. reflexivity.
  - split; [reflexivity|]. split; [exact Hcond|].
    rewrite Hmove. rewrite (proj1 (Hone rightOccupantItem Hcond)). reflexivity.
Defined.

(** X13 at the drag to the left of [dragScene]: one proposal, for the order
    position 3, with a negative number of places. *)
Lemma mouseMoveEvent_proposals_left_drag :
  ∃ rest,
    mouseMoveEvent UserTypes.WAVEFORM draggedItem dragLeftEvent dragScene
    = Some (BaseMouseMove dragLeftEvent :: rest)
    ∧ (rest = []
       ∨ ∃ numPlacesMoved,
           rest = [Emit (orderPosIsChanging [3] numPlacesMoved)] ∧ numPlacesMoved < 0).
Proof.
  destruct (mouseMoveEvent_proposals UserTypes.WAVEFORM draggedItem dragLeftEvent dragScene
              _ eq_refl) as (rest & Hrest & _ & Hcases).
  exists rest. split; [rewrite <- Hrest; reflexivity|].
  destruct Hcases as [Hnil|(n & Hone & Hleft & _)]; [left; exact Hnil|].
  right. exists n. split; [exact Hone|]. apply Hleft. reflexivity.
Defined.


(** X16 at a press with the right button on a selectable and movable item:
    the event is ignored and nothing else happens. *)
Lemma mousePressEvent_ignored_right_button :
  let it := placedItem 1 3 60 20 true in
  let event := Qt.mkMouseEvent 0 Qt.RightButton (Qt.mkPointF 60 30) 60 60 true in
  (mousePressEvent it event).1.1 = it
  ∧ Qt.accepted (mousePressEvent it event).1.2 = false
  ∧ (mousePressEvent it event).2 = [].
Proof.
  intros it event.
  destruct (mousePressEvent_ignored it event) as (Hit & Hacc & _ & _).
  - right. right. reflexivity.
  - split; [exact Hit|]. split; [exact Hacc|reflexivity].
Defined.

(** X17 on the middle one of the three selected items, of width 30 between
    items of widths 20 and 50 in a scene 200 wide: a proposed x of 5 becomes
    20, and 20 proposed again stays 20. *)
Lemma itemChange_position_idempotent_sample :
  let it := placedItem 2 1 20 30 true in
  let result := (itemChange it Qt.ItemPositionChange (Qt.VPointF (Qt.mkPointF 5 0))
                            (Some sceneOfThree)).2 in
  result = Qt.VPointF (Qt.mkPointF 20 18)
  ∧ itemChange it Qt.ItemPositionChange result (Some sceneOfThree) = (it, result).
Proof.
  intros it result.
  destruct (itemChange_position_idempotent it (Qt.VPointF (Qt.mkPointF 5 0)) sceneOfThree)
    as (Hidem & _).
  - vm_compute; discriminate.
  - split; [reflexivity|exact Hidem].
Defined.

(** X20 at the first paint of the left half of the item of width 10.5 over
    42 frames and a second paint of it: the second leaves [binItem] as it
    is and asks the buffer nothing. *)
Lemma repaint_bins_idempotent_sample :
  ∃ it' tr tr',
    samplePaint (newItem 1 fortyTwoFrames 0 (21 # 2)) 1 0 (21 # 4) = Some (it', tr)
    ∧ samplePaint it' 1 0 (21 # 4) = Some (it', tr')
    ∧ painterCalls tr' = painterCalls tr
    ∧ readBins tr' = readBins tr
    ∧ queriedBins tr' = []
    ∧ signals tr' = [].
Proof.
  apply (repaint_bins_idempotent sample_NOT_SET sample_MAX_CUTOFF sample_VERY_HIGH_CUTOFF
           sample_HIGH_CUTOFF (newItem 1 fortyTwoFrames 0 (21 # 2)) 1
           (Qt.mkStyleOption (Qt.mkRectF 0 0 (21 # 4) 100) false)).
  - reflexivity.
  - reflexivity.
  - vm_compute; discriminate.
  - vm_compute; discriminate.
  - vm_compute; discriminate.
  - reflexivity.
  - reflexivity.
  - intros E. vm_compute in E. discriminate.
  - vm_compute; discriminate.
Defined.

(** X21 on the four frames: the second paint of the whole item at scale 1
    draws the polyline of the first again and emits no signal. *)
Lemma repaint_samples_idempotent_four_frames :
  ∃ it' tr tr',
    samplePaint fourFrameItem 1 0 8 = Some (it', tr)
    ∧ samplePaint it' 1 0 8 = Some (it', tr')
    ∧ painterCalls tr' = painterCalls tr
    ∧ signals tr' = [].
Proof.
  destruct (paint sample_NOT_SET sample_MAX_CUTOFF sample_VERY_HIGH_CUTOFF
              sample_HIGH_CUTOFF fourFrameItem 1
              (Qt.mkStyleOption (Qt.mkRectF 0 0 8 100) false))
    as [[it' tr]|] eqn:E; [|vm_compute in E; discriminate].
  assert (m_detailLevel it' = VERY_HIGH) as Hd.
  { revert E. vm_compute. intros [= <- <-]. reflexivity. }
  destruct (repaint_samples_idempotent _ _ _ _ _ _ _ _ _ E Hd)
    as (tr' & Hpaint & Hcalls & Hsignals & _).
  exists it', tr, tr'. split; [reflexivity|]. split; [exact Hpaint|].
  split; [exact Hcalls|exact Hsignals].
Defined.

